(** * InfiScroll: a shallow embedding of the virtual list engine

    The development follows [src/unnamed/part_000] (the InfiScroll
    module, whose older copy is [src/scroll.js]).  JavaScript numbers
    used for geometry are modelled as exact rationals [Q]; list indices
    are integers [Z].  A JavaScript exception is modelled by [None] (or
    by the [Throw] constructor of a result type). *)

From Stdlib Require Import ZArith QArith Qround List Bool Lia Lqa.
From Stdlib Require String Ascii DecimalString DecimalZ.
Import ListNotations String.StringSyntax.

Open Scope Z_scope.
Set Warnings "-register-all".

(** ** Window calculator *)

Definition two32 : Z := 2 ^ 32.

(** [x >>> 0] for a finite number [x]: truncation towards zero, then
    reduction modulo 2^32 (ECMAScript ToUint32). *)
Definition to_uint32 (x : Q) : Z :=
  let t := if Qle_bool 0 x then Qfloor x else - Qfloor (- x)%Q in
  t mod two32.

(** [a < b] on finite numbers. *)
Definition Qlt_bool (a b : Q) : bool := negb (Qle_bool b a).

(** [Math.max(a, b)] on finite numbers. *)
Definition js_max (a b : Q) : Q := if Qle_bool a b then b else a.

(** [numRange(start, N)]: [Array.from(Array(N || 1), (v, i) => start + i)].
    [Array(len)] throws a RangeError unless [0 <= len < 2^32]. *)
Definition numRange (start N : Z) : option (list Z) :=
  let len := if N =? 0 then 1 else N in
  if (0 <=? len) && (len <? two32) then
    Some (map (fun k => start + Z.of_nat k) (seq 0 (Z.to_nat len)))
  else None.

(** [getChildrenInView(rootTop, rootHeight, treshold, childSize)];
    [childSize = None] is an undefined child size. *)
Definition getChildrenInView (rootTop rootHeight treshold : Q)
    (childSize : option Q) : option (list Z) :=
  match childSize with
  | None => Some [0]
  | Some c =>
      if Qeq_bool c 0 then Some [0] else
      let top := js_max (rootTop - treshold)%Q 0 in
      let totalHeight := (rootHeight + treshold * 2)%Q in
      let firstChildInView := to_uint32 (top / c) in
      let firstChildExcess := (inject_Z firstChildInView * c)%Q in
      let viewLeft := (totalHeight - (firstChildExcess - rootTop))%Q in
      let childrenInView := Qceiling (viewLeft / c) in
      numRange firstChildInView childrenInView
  end.

(** ** Values handled by the engine *)

(** An HTMLElement: its identity and its measured [scrollHeight]. *)
Record elem := mkElem { eid : nat; scrollHeight : Z }.

(** A child node of the list root: an element whose [id] attribute is
    [__InfiScroll_<c_uid>_index_<c_index>] (see [getListItemId]). *)
Record child := mkChild { c_uid : Z; c_index : Z; c_elem : elem }.

(** What a generator callback can be resolved with. [VOther b ps] is any
    other value (string, number, boolean, plain object), [b] its
    truthiness and [ps] the values of its properties [0], [1], ...
    ([undefined] past them): the one-character strings of a string, none
    for a number or a boolean.  Only the properties of a batch result are
    ever read, so those of the values in [ps] do not matter. *)
Inductive value :=
| VNull
| VUndefined
| VElem (e : elem)
| VArray (vs : list value)
| VOther (truthy : bool) (props : list value).

(** A number stored in [this.__size]: finite, infinite or NaN. *)
Inductive num := NNum (q : Q) | NPosInf | NNegInf | NNaN.

(** An argument of [updateSize]: a number (finite, infinite or NaN) or a
    value of another type. *)
Inductive jsval := JNum (q : Q) | JPosInf | JNegInf | JNaN | JOther.

(** The [index] argument of [onListItemGenerated]: a number or an array. *)
Inductive idx := ISingle (i : Z) | IBatch (is : list Z).

(** Callbacks scheduled with [setTimeout]. *)
Inductive task :=
| TInvalidate                                (* setTimeout(this.invalidate, 0) *)
| TGenerated (i : Z) (v : value) (u : Z)     (* batch item: onGenerated(id, element, uid) *)
| TRemoveElements (es : list Z)              (* deferred eviction: removeElements *)
| TReload.                                   (* setTimeout(() => reload(), 10) *)

(** Generator invocations whose callback has not been called yet. *)
Inductive request :=
| RGen (ix : idx) (u : Z)     (* generate(child(ren), cb) from invalidate *)
| RUpd (i : Z) (rnd : Z).     (* this.__query(index, cb) from updateItem *)

(** Calls into the producer and the DOM, in the order they happen. *)
Inductive event :=
| EQuery (ix : idx)
| EMount (i : Z)
| EReplace (i : Z)
| EUnmount (i : Z).

(** Options fixed at construction. *)
Record Cfg := mkCfg {
  elementLimit : option Z;   (* options.elementLimit *)
  cacheSize : option N;      (* options.cacheSize, a non-negative integer;
                                a negative one makes the truncation loop of
                                the eviction run forever, see [truncate_guard] *)
  batchLoad : bool;          (* options.batchLoad *)
  hasCheck : bool;           (* options.check is given *)
  hasDomDelete : bool;       (* options.domDelete is given *)
  tresholdFactor : Q         (* options.treshold, default 0.5 *)
}.

(** What the environment answers during an invalidation pass. *)
Record Env := mkEnv {
  scrollTop : Q;             (* this.element.scrollTop *)
  clientHeight : Q;          (* this.element.clientHeight *)
  visible : bool;            (* this.element.offsetParent !== null *)
  checkResult : bool         (* this.__check() *)
}.

(** ** The state of a [ScrollElement] instance *)
Record St := mkSt {
  domElements : list Z;
  inView : list Z;
  queue : list Z;
  cacheQueue : list Z;
  cache : list (Z * elem);
  queries : list Z;
  updateRequests : list (Z * Z);
  uniqueIdentifier : Z;
  reloading : bool;
  reloadAfterInvalidation : bool;
  reloadingChildrenToRemove : list child;
  childSize : option Q;
  treshold : Q;
  size : option num;
  lastScrollTop : Q;
  children : list child;
  tasks : list task;
  requests : list request;
  trace : list event
}.

Definition set_domElements (v : list Z) (s : St) : St :=
  mkSt v (inView s) (queue s) (cacheQueue s) (cache s) (queries s) (updateRequests s) (uniqueIdentifier s) (reloading s) (reloadAfterInvalidation s) (reloadingChildrenToRemove s) (childSize s) (treshold s) (size s) (lastScrollTop s) (children s) (tasks s) (requests s) (trace s).

Definition set_inView (v : list Z) (s : St) : St :=
  mkSt (domElements s) v (queue s) (cacheQueue s) (cache s) (queries s) (updateRequests s) (uniqueIdentifier s) (reloading s) (reloadAfterInvalidation s) (reloadingChildrenToRemove s) (childSize s) (treshold s) (size s) (lastScrollTop s) (children s) (tasks s) (requests s) (trace s).

Definition set_queue (v : list Z) (s : St) : St :=
  mkSt (domElements s) (inView s) v (cacheQueue s) (cache s) (queries s) (updateRequests s) (uniqueIdentifier s) (reloading s) (reloadAfterInvalidation s) (reloadingChildrenToRemove s) (childSize s) (treshold s) (size s) (lastScrollTop s) (children s) (tasks s) (requests s) (trace s).

Definition set_cacheQueue (v : list Z) (s : St) : St :=
  mkSt (domElements s) (inView s) (queue s) v (cache s) (queries s) (updateRequests s) (uniqueIdentifier s) (reloading s) (reloadAfterInvalidation s) (reloadingChildrenToRemove s) (childSize s) (treshold s) (size s) (lastScrollTop s) (children s) (tasks s) (requests s) (trace s).

Definition set_cache (v : list (Z * elem)) (s : St) : St :=
  mkSt (domElements s) (inView s) (queue s) (cacheQueue s) v (queries s) (updateRequests s) (uniqueIdentifier s) (reloading s) (reloadAfterInvalidation s) (reloadingChildrenToRemove s) (childSize s) (treshold s) (size s) (lastScrollTop s) (children s) (tasks s) (requests s) (trace s).

Definition set_queries (v : list Z) (s : St) : St :=
  mkSt (domElements s) (inView s) (queue s) (cacheQueue s) (cache s) v (updateRequests s) (uniqueIdentifier s) (reloading s) (reloadAfterInvalidation s) (reloadingChildrenToRemove s) (childSize s) (treshold s) (size s) (lastScrollTop s) (children s) (tasks s) (requests s) (trace s).

Definition set_updateRequests (v : list (Z * Z)) (s : St) : St :=
  mkSt (domElements s) (inView s) (queue s) (cacheQueue s) (cache s) (queries s) v (uniqueIdentifier s) (reloading s) (reloadAfterInvalidation s) (reloadingChildrenToRemove s) (childSize s) (treshold s) (size s) (lastScrollTop s) (children s) (tasks s) (requests s) (trace s).

Definition set_uniqueIdentifier (v : Z) (s : St) : St :=
  mkSt (domElements s) (inView s) (queue s) (cacheQueue s) (cache s) (queries s) (updateRequests s) v (reloading s) (reloadAfterInvalidation s) (reloadingChildrenToRemove s) (childSize s) (treshold s) (size s) (lastScrollTop s) (children s) (tasks s) (requests s) (trace s).

Definition set_reloading (v : bool) (s : St) : St :=
  mkSt (domElements s) (inView s) (queue s) (cacheQueue s) (cache s) (queries s) (updateRequests s) (uniqueIdentifier s) v (reloadAfterInvalidation s) (reloadingChildrenToRemove s) (childSize s) (treshold s) (size s) (lastScrollTop s) (children s) (tasks s) (requests s) (trace s).

Definition set_reloadAfterInvalidation (v : bool) (s : St) : St :=
  mkSt (domElements s) (inView s) (queue s) (cacheQueue s) (cache s) (queries s) (updateRequests s) (uniqueIdentifier s) (reloading s) v (reloadingChildrenToRemove s) (childSize s) (treshold s) (size s) (lastScrollTop s) (children s) (tasks s) (requests s) (trace s).

Definition set_reloadingChildrenToRemove (v : list child) (s : St) : St :=
  mkSt (domElements s) (inView s) (queue s) (cacheQueue s) (cache s) (queries s) (updateRequests s) (uniqueIdentifier s) (reloading s) (reloadAfterInvalidation s) v (childSize s) (treshold s) (size s) (lastScrollTop s) (children s) (tasks s) (requests s) (trace s).

Definition set_childSize (v : option Q) (s : St) : St :=
  mkSt (domElements s) (inView s) (queue s) (cacheQueue s) (cache s) (queries s) (updateRequests s) (uniqueIdentifier s) (reloading s) (reloadAfterInvalidation s) (reloadingChildrenToRemove s) v (treshold s) (size s) (lastScrollTop s) (children s) (tasks s) (requests s) (trace s).

Definition set_treshold (v : Q) (s : St) : St :=
  mkSt (domElements s) (inView s) (queue s) (cacheQueue s) (cache s) (queries s) (updateRequests s) (uniqueIdentifier s) (reloading s) (reloadAfterInvalidation s) (reloadingChildrenToRemove s) (childSize s) v (size s) (lastScrollTop s) (children s) (tasks s) (requests s) (trace s).

Definition set_size (v : option num) (s : St) : St :=
  mkSt (domElements s) (inView s) (queue s) (cacheQueue s) (cache s) (queries s) (updateRequests s) (uniqueIdentifier s) (reloading s) (reloadAfterInvalidation s) (reloadingChildrenToRemove s) (childSize s) (treshold s) v (lastScrollTop s) (children s) (tasks s) (requests s) (trace s).

Definition set_lastScrollTop (v : Q) (s : St) : St :=
  mkSt (domElements s) (inView s) (queue s) (cacheQueue s) (cache s) (queries s) (updateRequests s) (uniqueIdentifier s) (reloading s) (reloadAfterInvalidation s) (reloadingChildrenToRemove s) (childSize s) (treshold s) (size s) v (children s) (tasks s) (requests s) (trace s).

Definition set_children (v : list child) (s : St) : St :=
  mkSt (domElements s) (inView s) (queue s) (cacheQueue s) (cache s) (queries s) (updateRequests s) (uniqueIdentifier s) (reloading s) (reloadAfterInvalidation s) (reloadingChildrenToRemove s) (childSize s) (treshold s) (size s) (lastScrollTop s) v (tasks s) (requests s) (trace s).

Definition set_tasks (v : list task) (s : St) : St :=
  mkSt (domElements s) (inView s) (queue s) (cacheQueue s) (cache s) (queries s) (updateRequests s) (uniqueIdentifier s) (reloading s) (reloadAfterInvalidation s) (reloadingChildrenToRemove s) (childSize s) (treshold s) (size s) (lastScrollTop s) (children s) v (requests s) (trace s).

Definition set_requests (v : list request) (s : St) : St :=
  mkSt (domElements s) (inView s) (queue s) (cacheQueue s) (cache s) (queries s) (updateRequests s) (uniqueIdentifier s) (reloading s) (reloadAfterInvalidation s) (reloadingChildrenToRemove s) (childSize s) (treshold s) (size s) (lastScrollTop s) (children s) (tasks s) v (trace s).

Definition set_trace (v : list event) (s : St) : St :=
  mkSt (domElements s) (inView s) (queue s) (cacheQueue s) (cache s) (queries s) (updateRequests s) (uniqueIdentifier s) (reloading s) (reloadAfterInvalidation s) (reloadingChildrenToRemove s) (childSize s) (treshold s) (size s) (lastScrollTop s) (children s) (tasks s) (requests s) v.

(** ** A state and exception monad

    [Throw s] is a JavaScript exception escaping with the state [s]:
    the mutations made before the [throw] are kept. *)
Inductive res (A : Type) : Type :=
| Ok (a : A) (s : St)
| Throw (s : St).
Arguments Ok {A} a s.
Arguments Throw {A} s.

Definition M (A : Type) : Type := St -> res A.

Definition ret {A} (a : A) : M A := fun s => Ok a s.

Definition bind {A B} (m : M A) (k : A -> M B) : M B :=
  fun s => match m s with Ok a s' => k a s' | Throw s' => Throw s' end.

Notation "x <- m ;; k" := (bind m (fun x => k))
  (at level 61, m at next level, right associativity).
Notation "m ;;; k" := (bind m (fun _ => k))
  (at level 61, right associativity).

Definition get : M St := fun s => Ok s s.
Definition modify (f : St -> St) : M unit := fun s => Ok tt (f s).
Definition throw {A} : M A := fun s => Throw s.

(** The state an event handler leaves behind, whether it returned or threw. *)
Definition outcome {A} (r : res A) : St := match r with Ok _ s => s | Throw s => s end.

Fixpoint mfor {A} (l : list A) (f : A -> M unit) : M unit :=
  match l with
  | [] => ret tt
  | x :: l' => f x ;;; mfor l' f
  end.

Fixpoint mfold {A B} (f : B -> A -> M B) (l : list A) (b : B) : M B :=
  match l with
  | [] => ret b
  | x :: l' => b' <- f b x ;; mfold f l' b'
  end.

(** ** JavaScript [Set], [Map] and [Array] operations on indices *)

(** [set.has(x)] / [map.has(x)] *)
Definition has (x : Z) (l : list Z) : bool := existsb (Z.eqb x) l.

(** [set.add(x)]: insertion order is kept. *)
Definition set_add (x : Z) (l : list Z) : list Z := if has x l then l else l ++ [x].

(** [set.delete(x)] *)
Definition set_delete (x : Z) (l : list Z) : list Z := filter (fun y => negb (y =? x)) l.

(** [new Set(array)] *)
Definition set_of_list (l : list Z) : list Z := fold_left (fun acc x => set_add x acc) l [].

(** [const p = a.indexOf(x); if (p != -1) a.splice(p, 1);] *)
Fixpoint remove_first (x : Z) (l : list Z) : list Z :=
  match l with
  | [] => []
  | y :: l' => if y =? x then l' else y :: remove_first x l'
  end.

Fixpoint map_get {V} (k : Z) (m : list (Z * V)) : option V :=
  match m with
  | [] => None
  | (k', v) :: m' => if k' =? k then Some v else map_get k m'
  end.

(** [map.set(k, v)]: an existing key keeps its position. *)
Fixpoint map_set {V} (k : Z) (v : V) (m : list (Z * V)) : list (Z * V) :=
  match m with
  | [] => [(k, v)]
  | (k', v') :: m' => if k' =? k then (k', v) :: m' else (k', v') :: map_set k v m'
  end.

Definition map_delete {V} (k : Z) (m : list (Z * V)) : list (Z * V) :=
  filter (fun p => negb (fst p =? k)) m.

Fixpoint remove_nth {A} (n : nat) (l : list A) : list A :=
  match n, l with
  | _, [] => []
  | O, _ :: l' => l'
  | S n', x :: l' => x :: remove_nth n' l'
  end.

(** ** DOM operations on the children of the list root *)

(** [document.getElementById(getListItemId(index))] *)
Definition getElementById (u i : Z) (cs : list child) : option child :=
  find (fun c => (c_uid c =? u) && (c_index c =? i)) cs.

(** [parent.removeChild(e)] for a child [e] (nothing when absent). *)
Definition remove_elem (e : elem) (cs : list child) : list child :=
  filter (fun c => negb (Nat.eqb (eid (c_elem c)) (eid e))) cs.

(** The child [e] now carries the id of [node]. *)
Definition set_id (e : elem) (node : child) (cs : list child) : list child :=
  map (fun c => if Nat.eqb (eid (c_elem c)) (eid e) then node else c) cs.

Fixpoint insert_before (node : child) (ref : elem) (cs : list child) : option (list child) :=
  match cs with
  | [] => None
  | c :: cs' =>
      if Nat.eqb (eid (c_elem c)) (eid ref) then Some (node :: c :: cs')
      else option_map (cons c) (insert_before node ref cs')
  end.

Definition schedule (t : task) : M unit :=
  modify (fun s => set_tasks (tasks s ++ [t]) s).

Definition log (e : event) : M unit :=
  modify (fun s => set_trace (trace s ++ [e]) s).

(** [!this.__childSize] *)
Definition size_falsy (c : option Q) : bool :=
  match c with None => true | Some q => Qeq_bool q 0 end.

(** [calculateTreshold] *)
Definition calculateTreshold (cfg : Cfg) (c : Q) : Q := (tresholdFactor cfg * c)%Q.

(** [addChild(index, elem, inPlace)].  Styling, the [last-of-list]
    class, the dummy element and [stretchList] only touch presentation
    and are not modelled. *)
Definition addChild (cfg : Cfg) (index : Z) (e : elem) (inPlace : bool) : M unit :=
  s <- get ;;
  let node := mkChild (uniqueIdentifier s) index e in
  (if inPlace then
     (* elem.id = getListItemId(index), also when elem is already a child *)
     let cs0 := set_id e node (children s) in
     match getElementById (uniqueIdentifier s) index cs0 with
     | Some old =>
         if Nat.eqb (eid (c_elem old)) (eid e) then
           (* insertBefore(elem, elem) leaves the children as they are;
              removeChild(elem) then detaches elem *)
           modify (set_children (remove_elem e cs0))
         else
         match insert_before node (c_elem old) (remove_elem e cs0) with
         | Some cs => modify (set_children (remove_elem (c_elem old) cs))
         | None => throw                      (* insertBefore: NotFoundError *)
         end
     | None =>
         (* insertBefore(elem, null) appends; removeChild(null) throws *)
         modify (set_children (remove_elem e cs0 ++ [node])) ;;; throw
     end ;;; log (EReplace index)
   else
     modify (set_children (remove_elem e (children s) ++ [node])) ;;; log (EMount index)) ;;;
  s <- get ;;
  if size_falsy (childSize s) then
    let c := inject_Z (scrollHeight e) in
    modify (fun s => set_treshold (calculateTreshold cfg c) (set_childSize (Some c) s)) ;;;
    schedule TInvalidate
  else ret tt.

Definition idx_list (ix : idx) : list Z :=
  match ix with ISingle i => [i] | IBatch is => is end.

(** [newElement === null || newElement === undefined ||
     (newElement.constructor === Array && newElement.length === 0)] *)
Definition empty_result (v : value) : bool :=
  match v with VNull | VUndefined | VArray [] => true | _ => false end.

(** [newElement[i]] *)
Definition value_nth (k : nat) (v : value) : value :=
  match v with
  | VArray vs | VOther _ vs => nth k vs VUndefined
  | _ => VUndefined
  end.

(** The [setTimeout] callbacks of the batch branch, one per index. *)
Fixpoint batch_tasks (k : nat) (is : list Z) (v : value) (u : Z) : list task :=
  match is with
  | [] => []
  | i :: is' => TGenerated i (value_nth k v) u :: batch_tasks (S k) is' v u
  end.

(** [onListItemGenerated(index, newElement, uniqueIdentifier)] *)
Definition onListItemGenerated (cfg : Cfg) (ix : idx) (v : value) (u : Z) : M unit :=
  if u =? 0 then throw else
  if empty_result v then
    modify (fun s => set_queries (fold_left (fun q i => set_delete i q) (idx_list ix) (queries s)) s)
  else
  s <- get ;;
  if negb (uniqueIdentifier s =? u) then ret tt else
  match ix with
  | IBatch is => modify (fun s => set_tasks (tasks s ++ batch_tasks 0 is v u) s)
  | ISingle i =>
      match v with
      | VElem e =>
          modify (fun s => set_queries (set_delete i (queries s)) s) ;;;
          modify (fun s => set_cache (map_delete i (cache s)) s) ;;;
          modify (fun s => set_cacheQueue (remove_first i (cacheQueue s)) s) ;;;
          modify (fun s => set_domElements (set_add i (domElements s)) s) ;;;
          addChild cfg i e false ;;;
          s <- get ;;
          if (length (queries s) =? 0)%nat && reloading s then
            modify (fun s => set_reloading false s) ;;;
            modify (fun s => set_children
                      (fold_left (fun cs c => remove_elem (c_elem c) cs)
                         (reloadingChildrenToRemove s) (children s)) s) ;;;
            modify (set_reloadingChildrenToRemove []) ;;;
            s <- get ;;
            if reloadAfterInvalidation s then
              modify (set_reloadAfterInvalidation false) ;;; schedule TReload
            else ret tt
          else ret tt
      | _ => throw       (* non-HTMLElement result *)
      end
  end.

(** [typeof this.__size === "number" ? e < this.__size : true] *)
Definition below_size (e : Z) (sz : option num) : bool :=
  match sz with
  | None => true
  | Some (NNum q) => Qlt_bool (inject_Z e) q
  | Some NPosInf => true
  | Some NNegInf | Some NNaN => false
  end.

(** The eviction loop of [invalidate]:
    [while (queue.length > elementLimit && i++ < queue.length)]; each
    round shifts the oldest index, which is kept out of [elementsToRemove]
    when it is in view or has a query pending. *)
Fixpoint evict_loop (fuel : nat) (limit : Z) (inview pending : list Z)
    (i : Z) (q acc : list Z) : list Z * list Z :=
  match fuel with
  | O => (q, acc)
  | S fuel' =>
      if (Z.of_nat (length q) >? limit) && (i <? Z.of_nat (length q)) then
        match q with
        | [] => (q, acc)
        | c :: q' =>
            if has c inview || has c pending
            then evict_loop fuel' limit inview pending (i + 1) q' acc
            else evict_loop fuel' limit inview pending (i + 1) q' (acc ++ [c])
        end
      else (q, acc)
  end.

(** [if (this.__elementLimit) { ... setTimeout(removeElements, 0) }] *)
Definition evictOverflow (cfg : Cfg) : M unit :=
  match elementLimit cfg with
  | Some lim =>
      if lim =? 0 then ret tt else
      s <- get ;;
      let '(q', es) := evict_loop (S (length (queue s))) lim (inView s) (queries s) 0 (queue s) [] in
      modify (set_queue q') ;;;
      match es with [] => ret tt | _ => schedule (TRemoveElements es) end
  | None => ret tt
  end.

(** [removeChildren(parent, elements)]: the map from index to removed
    element, and the remaining children. *)
Definition removeChildren (u : Z) (es : list Z) (cs : list child)
    : list (Z * elem) * list child :=
  fold_left
    (fun '(m, cs) e =>
       match getElementById u e cs with
       | Some c => (map_set e (c_elem c) m, remove_elem (c_elem c) cs)
       | None => (m, cs)
       end) es ([], cs).

(** The guard of the truncation loop,
    [cacheSize && cacheQueue.length > cacheSize], for an integer
    [cacheSize]. *)
Definition truncate_guard (cs : Z) (q : list Z) : bool :=
  negb (cs =? 0) && (Z.of_nat (length q) >? cs).

(** Its body, [cache.delete(cacheQueue.shift())]; [shift()] on an empty
    queue gives [undefined], whose deletion changes nothing. *)
Definition truncate_body (qc : list Z * list (Z * elem)) : list Z * list (Z * elem) :=
  match fst qc with
  | [] => ([], snd qc)
  | x :: q' => (q', map_delete x (snd qc))
  end.

(** [while (cacheSize && cacheQueue.length > cacheSize)
       cache.delete(cacheQueue.shift())] for a positive [cacheSize = n]:
    the loop stops at the latest when the queue is empty. *)
Fixpoint truncate_loop (n : N) (q : list Z) (c : list (Z * elem)) : list Z * list (Z * elem) :=
  match q with
  | [] => ([], c)
  | x :: q' => if Z.of_nat (length q) >? Z.of_N n then truncate_loop n q' (map_delete x c) else (q, c)
  end.

Definition truncateCache (cs : option N) (q : list Z) (c : list (Z * elem))
    : list Z * list (Z * elem) :=
  match cs with
  | Some n => if (n =? 0)%N then (q, c) else truncate_loop n q c
  | None => (q, c)
  end.

(** [removeElements]: the deferred part of the eviction.  The source
    calls [__domDelete(removedDom)], an unbound name, when the
    [domDelete] option is set: a ReferenceError. *)
Definition removeElements (cfg : Cfg) (es : list Z) : M unit :=
  s <- get ;;
  let '(removed, cs) := removeChildren (uniqueIdentifier s) es (children s) in
  modify (set_children cs) ;;;
  mfor (map fst removed) (fun i => log (EUnmount i)) ;;;
  mfor removed (fun '(i, dom) =>
    modify (fun s => set_cacheQueue (cacheQueue s ++ [i]) s) ;;;
    modify (fun s => set_cache (map_set i dom (cache s)) s) ;;;
    modify (fun s => set_domElements (set_delete i (domElements s)) s) ;;;
    if hasDomDelete cfg then throw else ret tt) ;;;
  modify (fun s =>
    let '(q, c) := truncateCache (cacheSize cfg) (cacheQueue s) (cache s) in
    set_cache c (set_cacheQueue q s)).

(** One iteration of [for (const childToQuery of difference)]; the
    accumulator is [childrenToLoad].  Spinner calls are not modelled. *)
Definition load_child (cfg : Cfg) (u : Z) (acc : list Z) (c : Z) : M (list Z) :=
  s <- get ;;
  if negb (below_size c (size s)) then ret acc else
  if has c (queries s) then ret acc else
  modify (fun s => set_queue (queue s ++ [c]) s) ;;;
  match map_get c (cache s) with
  | Some e => onListItemGenerated cfg (ISingle c) (VElem e) u ;;; ret acc
  | None => modify (fun s => set_queries (set_add c (queries s)) s) ;;; ret (acc ++ [c])
  end.

(** A call of the generator; its callback is delivered later by [deliver]. *)
Definition query (rq : request) (ix : idx) : M unit :=
  modify (fun s => set_requests (requests s ++ [rq]) s) ;;; log (EQuery ix).

Definition generate_all (cfg : Cfg) (u : Z) (toLoad : list Z) : M unit :=
  match toLoad with
  | [] => ret tt
  | _ =>
      if batchLoad cfg then query (RGen (IBatch toLoad) u) (IBatch toLoad)
      else mfor toLoad (fun c => query (RGen (ISingle c) u) (ISingle c))
  end.

(** The guard of [invalidate(force)]. *)
Definition guard (cfg : Cfg) (force : bool) (env : Env) : bool :=
  force || (if hasCheck cfg then checkResult env else visible env).

(** The scroll offset used by a pass: [scrollTop], or the last recorded
    one when the element is hidden and reports 0. *)
Definition pass_scrollTop (env : Env) (s : St) : Q :=
  if Qeq_bool (scrollTop env) 0 && negb (visible env) && negb (Qeq_bool (lastScrollTop s) 0)
  then lastScrollTop s else scrollTop env.

(** [ScrollElement.prototype.invalidate(force)] *)
Definition invalidate (cfg : Cfg) (force : bool) (env : Env) : M unit :=
  if negb (guard cfg force env) then ret tt else
  s <- get ;;
  let st := pass_scrollTop env s in
  modify (set_lastScrollTop st) ;;;
  match getChildrenInView st (clientHeight env) (treshold s) (childSize s) with
  | None => throw                      (* RangeError from Array(N) *)
  | Some elementsInView =>
      let difference := filter (fun e => negb (has e (domElements s))) elementsInView in
      let difference := filter (fun e => below_size e (size s)) difference in
      modify (set_inView (set_of_list elementsInView)) ;;;
      evictOverflow cfg ;;;
      s <- get ;;
      let u := uniqueIdentifier s in
      toLoad <- mfold (load_child cfg u) difference [] ;;
      generate_all cfg u toLoad
  end.

(** [ScrollElement.prototype.reload]; [newUid] is the fresh
    [Math.random() * 1000000 >>> 0]. *)
Definition reload (newUid : Z) : M unit :=
  s <- get ;;
  if reloading s then modify (set_reloadAfterInvalidation true) else
  modify (fun s =>
    mkSt [] [] [] [] [] [] [] newUid true (reloadAfterInvalidation s) (children s)
         (childSize s) (treshold s) (size s) (lastScrollTop s) (children s)
         (tasks s ++ [TInvalidate]) (requests s) (trace s)).

(** [ScrollElement.prototype.updateItem(index, ...data)]; [rnd] is
    [Math.random() * 1000 >>> 0]. *)
Definition updateItem (index rnd : Z) : M unit :=
  s <- get ;;
  if negb (has index (domElements s)) then ret tt else
  modify (fun s => set_updateRequests (map_set index rnd (updateRequests s)) s) ;;;
  query (RUpd index rnd) (ISingle index).

Definition truthy (v : value) : bool :=
  match v with VNull | VUndefined => false | VOther b _ => b | _ => true end.

(** The callback passed to the generator by [updateItem]. *)
Definition onUpdated (cfg : Cfg) (index rnd : Z) (v : value) : M unit :=
  if negb (truthy v) then ret tt else
  let v := match v with VArray vs => nth 0 vs VUndefined | _ => v end in
  s <- get ;;
  match map_get index (updateRequests s) with
  | Some r =>
      if r =? rnd then
        match v with VElem e => addChild cfg index e true | _ => throw end
      else ret tt
  | None => ret tt
  end.

(** The producer calls the callback of the [k]-th outstanding request. *)
Definition deliver (cfg : Cfg) (k : nat) (v : value) : M unit :=
  s <- get ;;
  match nth_error (requests s) k with
  | None => ret tt
  | Some rq =>
      modify (fun s => set_requests (remove_nth k (requests s)) s) ;;;
      match rq with
      | RGen ix u => onListItemGenerated cfg ix v u
      | RUpd i rnd => onUpdated cfg i rnd v
      end
  end.

(** [newSize === oldSize] *)
Definition num_same (old : option num) (n : num) : bool :=
  match old, n with
  | Some (NNum a), NNum b => Qeq_bool a b
  | Some NPosInf, NPosInf | Some NNegInf, NNegInf => true
  | _, _ => false
  end.

(** [domElementId >= newSize] *)
Definition num_le_Z (n : num) (e : Z) : bool :=
  match n with NNum q => Qle_bool q (inject_Z e) | NNegInf => true | NPosInf | NNaN => false end.

Definition is_zero (n : option num) : bool :=
  match n with Some (NNum q) => Qeq_bool q 0 | _ => false end.

(** The body of [updateSize] after its argument check.  Moving the dummy
    element and the scroll position is presentation and is not modelled. *)
Definition updateSize_body (cfg : Cfg) (n : num) (env : Env) : M unit :=
  s <- get ;;
  let oldSize := size s in
  if num_same oldSize n then ret tt else
  modify (set_size (Some n)) ;;;
  let removeEls := filter (num_le_Z n) (domElements s) in
  (match removeEls with
   | [] => ret tt
   | _ =>
       modify (fun s => set_children (snd (removeChildren (uniqueIdentifier s) removeEls (children s))) s) ;;;
       mfor removeEls (fun r =>
         modify (fun s =>
           set_cacheQueue (remove_first r (cacheQueue s))
             (set_queue (remove_first r (queue s))
               (set_cache (map_delete r (cache s))
                 (set_domElements (set_delete r (domElements s)) s)))))
   end) ;;;
  (if is_zero (Some n) then modify (set_children []) else ret tt) ;;;
  if is_zero oldSize then invalidate cfg false env else ret tt.

(** [ScrollElement.prototype.updateSize(size)] *)
Definition updateSize (cfg : Cfg) (arg : jsval) (env : Env) : M unit :=
  match arg with
  | JOther => throw                        (* typeof size !== "number" *)
  | JNegInf => throw                       (* size < 0 *)
  | JPosInf => updateSize_body cfg NPosInf env
  | JNaN => updateSize_body cfg NNaN env   (* NaN < 0 is false *)
  | JNum q => if Qlt_bool q 0 then throw else updateSize_body cfg (NNum q) env
  end.

(** A [setTimeout] callback fires. *)
Definition run_task (cfg : Cfg) (t : task) (env : Env) (newUid : Z) : M unit :=
  match t with
  | TInvalidate => invalidate cfg false env
  | TGenerated i v u => onListItemGenerated cfg (ISingle i) v u
  | TRemoveElements es => removeElements cfg es
  | TReload => reload newUid
  end.

Definition fire (cfg : Cfg) (k : nat) (env : Env) (newUid : Z) : M unit :=
  s <- get ;;
  match nth_error (tasks s) k with
  | None => ret tt
  | Some t => modify (fun s => set_tasks (remove_nth k (tasks s)) s) ;;; run_task cfg t env newUid
  end.

(** The state right after [new ScrollElement(elem, options)]. *)
Definition construct (cfg : Cfg) (u : Z) (childSize0 : option Q) (size0 : option num) : St :=
  mkSt [] [] [] [] [] [] [] u false false []
       childSize0
       (match childSize0 with Some c => if Qeq_bool c 0 then 0%Q else calculateTreshold cfg c | None => 0%Q end)
       size0 0%Q [] [TInvalidate] [] [].

(** ** Concrete configurations used by the scenarios *)

Definition el (n : nat) : elem := mkElem n 50.

(** [elementLimit = 3], no padding, child size 50. *)
Definition cfg_limit3 : Cfg := mkCfg (Some 3) None false false false 0%Q.

(** Indices 0..3 mounted in this order. *)
Definition st_mounted4 : St :=
  mkSt [0; 1; 2; 3] [] [0; 1; 2; 3] [] [] [] [] 7 false false [] (Some 50%Q) 0%Q None 0%Q
    [mkChild 7 0 (el 0); mkChild 7 1 (el 1); mkChild 7 2 (el 2); mkChild 7 3 (el 3)] [] [] [].

(** Scrolled to 100px with a 100px viewport: indices 2 and 3 in view. *)
Definition env_2_3 : Env := mkEnv 100%Q 100%Q true true.

(** Scrolled to 200px: indices 4 and 5 in view. *)
Definition env_4_5 : Env := mkEnv 200%Q 100%Q true true.

(** [elementLimit = 1], [cacheSize = 1], no padding; [domDelete] given
    or not. *)
Definition cfg_cache1 (dd : bool) : Cfg := mkCfg (Some 1) (Some 1%N) false false dd 0%Q.

(** A 50px viewport scrolled to [t]: one child in view. *)
Definition env_at (t : Q) : Env := mkEnv t 50%Q true true.

(** Scrolling down one child at a time: each pass queries the next
    index, the producer answers, and from the second pass on the pass
    evicts the oldest mounted index, whose removal the next timer runs. *)
Definition c6_s0 (dd : bool) : St := construct (cfg_cache1 dd) 7 (Some 50%Q) None.
Definition c6_s1 (dd : bool) : St := outcome (fire (cfg_cache1 dd) 0 (env_at 0) 0 (c6_s0 dd)).
Definition c6_s2 (dd : bool) : St := outcome (deliver (cfg_cache1 dd) 0 (VElem (el 0)) (c6_s1 dd)).
Definition c6_s3 (dd : bool) : St := outcome (invalidate (cfg_cache1 dd) false (env_at 50) (c6_s2 dd)).
Definition c6_s4 (dd : bool) : St := outcome (deliver (cfg_cache1 dd) 0 (VElem (el 1)) (c6_s3 dd)).
Definition c6_s5 (dd : bool) : St := outcome (invalidate (cfg_cache1 dd) false (env_at 100) (c6_s4 dd)).
Definition c6_s6 (dd : bool) : St := outcome (fire (cfg_cache1 dd) 0 (env_at 100) 0 (c6_s5 dd)).
Definition c6_s7 (dd : bool) : St := outcome (deliver (cfg_cache1 dd) 0 (VElem (el 2)) (c6_s6 dd)).
Definition c6_s8 (dd : bool) : St := outcome (invalidate (cfg_cache1 dd) false (env_at 150) (c6_s7 dd)).
Definition c6_s9 (dd : bool) : St := outcome (fire (cfg_cache1 dd) 0 (env_at 150) 0 (c6_s8 dd)).
Definition c6_s10 (dd : bool) : St := outcome (deliver (cfg_cache1 dd) 0 (VElem (el 3)) (c6_s9 dd)).
Definition c6_s11 (dd : bool) : St := outcome (invalidate (cfg_cache1 dd) false (env_at 200) (c6_s10 dd)).
Definition c6_s12 (dd : bool) : St := outcome (fire (cfg_cache1 dd) 0 (env_at 200) 0 (c6_s11 dd)).

(** Default padding factor 0.5, child size 50. *)
Definition cfg_default : Cfg := mkCfg None None false false false (1 # 2).

Definition env_top : Env := mkEnv 0%Q 100%Q true true.

(** A list that resolves nothing before a reload: the initial pass
    queries 0, 1, 2 under the identifier 7, [reload()] draws 9, the next
    pass queries 0, 1, 2 again under 9, then the producer answers the
    old query for index 0 with [null]. *)
Definition c2_s0 : St := construct cfg_default 7 (Some 50%Q) None.
Definition c2_s1 : St := outcome (fire cfg_default 0 env_top 0 c2_s0).
Definition c2_s2 : St := outcome (reload 9 c2_s1).
Definition c2_s3 : St := outcome (fire cfg_default 0 env_top 0 c2_s2).
Definition c2_s4 : St := outcome (deliver cfg_default 0 VNull c2_s3).
Definition c2_s5 : St := outcome (invalidate cfg_default false env_top c2_s4).

(** No padding, a 50px viewport: only index 0 is in view. *)
Definition cfg_nopad : Cfg := mkCfg None None false false false 0%Q.
Definition env_one : Env := mkEnv 0%Q 50%Q true true.

(** Index 0 is mounted; [reload()] draws 9 and its pass queries index 0;
    [reload()] is called twice more (drawing 11 and 12) before that
    query resolves. *)
Definition c5_s0 : St := construct cfg_nopad 7 (Some 50%Q) None.
Definition c5_s1 : St := outcome (fire cfg_nopad 0 env_one 0 c5_s0).
Definition c5_s2 : St := outcome (deliver cfg_nopad 0 (VElem (el 0)) c5_s1).
Definition c5_s3 : St := outcome (reload 9 c5_s2).
Definition c5_s4 : St := outcome (fire cfg_nopad 0 env_one 0 c5_s3).
Definition c5_s5 : St := outcome (reload 11 c5_s4).
Definition c5_s6 : St := outcome (reload 12 c5_s5).
Definition c5_s7 : St := outcome (deliver cfg_nopad 0 (VElem (el 1)) c5_s6).

Definition is_reload (t : task) : bool := match t with TReload => true | _ => false end.
Definition count_reload (ts : list task) : nat := length (filter is_reload ts).

(** [addChild] only touches the DOM children, the trace, the child size
    and threshold, and may schedule one invalidation. *)
Definition addChild_frame (s s' : St) : Prop :=
  domElements s' = domElements s /\ inView s' = inView s /\ queue s' = queue s /\
  cacheQueue s' = cacheQueue s /\ cache s' = cache s /\ queries s' = queries s /\
  updateRequests s' = updateRequests s /\ uniqueIdentifier s' = uniqueIdentifier s /\
  reloading s' = reloading s /\ reloadAfterInvalidation s' = reloadAfterInvalidation s /\
  reloadingChildrenToRemove s' = reloadingChildrenToRemove s /\ size s' = size s /\
  lastScrollTop s' = lastScrollTop s /\ requests s' = requests s /\
  (tasks s' = tasks s \/ tasks s' = tasks s ++ [TInvalidate]).

(** C7 scenario: index 0 evicted and cached by the [cfg_limit3] pass
    at 100px, then scrolled back into view at the top. *)
Definition c7_s1 : St := outcome (invalidate cfg_limit3 false env_2_3 st_mounted4).
Definition c7_s2 : St := outcome (removeElements cfg_limit3 [0] c7_s1).

(** Does a generator call cover index [k]? *)
Definition covers (k : Z) (rq : request) : bool :=
  match rq with RGen ix _ => has k (idx_list ix) | RUpd _ _ => false end.

Definition is_query (ev : event) : bool :=
  match ev with EQuery _ => true | _ => false end.

(** ** Pending generator calls *)

(** The number of times a generator call covers index [i]; update
    calls of [updateItem] produce no list element and count 0. *)
Definition count_gen (i : Z) (rq : request) : nat :=
  match rq with RGen ix _ => count_occ Z.eq_dec (idx_list ix) i | RUpd _ _ => O end.

(** A [setTimeout] callback of the batch branch still to deliver [i]. *)
Definition count_cb (i : Z) (t : task) : nat :=
  match t with TGenerated j _ _ => if j =? i then 1%nat else O | _ => O end.

(** Outstanding generator calls covering [i]. *)
Definition outstanding (i : Z) (s : St) : nat := list_sum (map (count_gen i) (requests s)).

Definition pending_count (i : Z) (s : St) : nat :=
  (outstanding i s + list_sum (map (count_cb i) (tasks s)))%nat.

(** The invariant of the passes: no reload in progress or scheduled,
    and the calls and callbacks still to deliver [i], plus a reserve
    [a i], are at most one, and none unless [i] is in [queries]. *)
Definition pend_ok (a : Z -> nat) (s : St) : Prop :=
  reloading s = false /\ count_reload (tasks s) = O /\
  forall i, (pending_count i s + a i <= if has i (queries s) then 1 else 0)%nat.

(** What [onListItemGenerated] needs to keep [pend_ok a]. *)
Definition olg_pre (a : Z -> nat) (ix : idx) (s : St) : Prop :=
  reloading s = false /\ count_reload (tasks s) = O /\
  match ix with
  | ISingle i =>
      (pending_count i s + a i = 0)%nat /\
      forall j, (pending_count j s + a j <= if has j (queries s) then 1 else 0)%nat
  | IBatch is =>
      forall j, (pending_count j s + a j + count_occ Z.eq_dec is j
                 <= if has j (queries s) then 1 else 0)%nat
  end.

(** [pend_ok] after a run of the loading loop; the indices collected
    for the generator are reserved. *)
Definition after_load (a : Z -> nat) (r : res (list Z)) : Prop :=
  match r with
  | Ok acc s => pend_ok (fun j => a j + count_occ Z.eq_dec acc j)%nat s
  | Throw s => pend_ok a s
  end.

(** The public operations other than [reload], and the browser firing
    a timer or the producer answering a call. *)
Inductive step (cfg : Cfg) : St -> St -> Prop :=
| step_invalidate (force : bool) (env : Env) (s : St) :
    step cfg s (outcome (invalidate cfg force env s))
| step_fire (k : nat) (env : Env) (newUid : Z) (s : St) :
    step cfg s (outcome (fire cfg k env newUid s))
| step_deliver (k : nat) (v : value) (s : St) :
    step cfg s (outcome (deliver cfg k v s))
| step_updateItem (index rnd : Z) (s : St) :
    step cfg s (outcome (updateItem index rnd s))
| step_updateSize (arg : jsval) (env : Env) (s : St) :
    step cfg s (outcome (updateSize cfg arg env s)).

(** The states reached from [s0] by steps. *)
Inductive reachable (cfg : Cfg) (s0 : St) : St -> Prop :=
| reach_here : reachable cfg s0 s0
| reach_next (s s' : St) : reachable cfg s0 s -> step cfg s s' -> reachable cfg s0 s'.

(** The public operations together with [reload()]. *)
Inductive step_all (cfg : Cfg) : St -> St -> Prop :=
| step_other (s s' : St) : step cfg s s' -> step_all cfg s s'
| step_reload (newUid : Z) (s : St) : step_all cfg s (outcome (reload newUid s)).

Inductive reachable_all (cfg : Cfg) (s0 : St) : St -> Prop :=
| reach_all_here : reachable_all cfg s0 s0
| reach_all_next (s s' : St) :
    reachable_all cfg s0 s -> step_all cfg s s' -> reachable_all cfg s0 s'.

(** Outstanding generator calls covering [i] made under the identifier [u]. *)
Definition outstanding_uid (u i : Z) (s : St) : nat :=
  list_sum (map (fun rq => match rq with
                           | RGen ix v => if v =? u then count_occ Z.eq_dec (idx_list ix) i else O
                           | RUpd _ _ => O
                           end) (requests s)).

(** A second pass right after the first one. *)
Definition c4_s2 : St := outcome (invalidate cfg_default false env_top c2_s1).

(** ** Element ids, options, construction and the scroll height *)

(** [String(n)] for an integer [n] with [|n| < 10^21]: its decimal
    digits, with a leading [-] when [n] is negative. *)
Definition js_int_string (z : Z) : String.string :=
  DecimalString.NilEmpty.string_of_int (Z.to_int z).

Open Scope string_scope.

Definition MODULE_NAME : String.string := "InfiScroll".

(** [getListItemId(index)] with [this.__uniqueIdentifier = uid]:
    [`__${MODULE_NAME}_${uid}_index_${index}`]. *)
Definition getListItemId (uid index : Z) : String.string :=
  String.append "__" (String.append MODULE_NAME (String.append "_"
    (String.append (js_int_string uid) (String.append "_index_" (js_int_string index))))).

(** A value stored in the options object. *)
Inductive optval :=
| OUndefined
| ONull
| OBool (b : bool)
| ONum (q : Q)
| OStr (s : String.string)
| OFun
| OObj.

(** Truthiness of an option value. *)
Definition opt_truthy (v : optval) : bool :=
  match v with
  | OUndefined | ONull => false
  | OBool b => b
  | ONum q => negb (Qeq_bool q 0)
  | OStr s => negb (String.eqb s "")
  | OFun | OObj => true
  end.

(** A plain options object: its own properties, in order, with distinct
    keys.  None of the option names is a property of [Object.prototype]. *)
Definition opts := list (String.string * optval).

(** [p in object] *)
Definition key_in (p : String.string) (o : opts) : bool := existsb (String.eqb p) (map fst o).

(** [object[p]] *)
Definition opt_get (p : String.string) (o : opts) : optval :=
  match find (fun kv => String.eqb p (fst kv)) o with Some (_, v) => v | None => OUndefined end.

(** [requireOptions(object, ...properties)]; [None] is the thrown Error. *)
Definition requireOptions (o : opts) (props : list String.string) : option unit :=
  let missing := filter (fun p => negb (key_in p o)) props in
  if (length missing =? 0)%nat then Some tt else None.

(** [Object.values(OPTIONS)] *)
Definition OPTIONS_values : list String.string :=
  ["treshold"; "elementLimit"; "size"; "generator"; "fixedSize"; "childSize";
   "cacheSize"; "check"; "domDelete"; "spinner"; "throttleScroll";
   "keepPositionOnReload"; "batchLoad"].

(** What the constructor does outside the instance's own fields. *)
Inductive ctor_effect :=
| AddResizeListener                   (* window.addEventListener("resize", ...) *)
| AddScrollListener                   (* elem.addEventListener("scroll", ...) *)
| ClearContainer                      (* removing every child of elem *)
| SpinnerShown                        (* this.__spinner(true) *)
| WarnKeys (ks : list String.string)  (* warn about unknown option keys *)
| ScheduleInvalidate.                 (* setTimeout(this.invalidate.bind(this), 0) *)

(** [new ScrollElement(elem, options)]: the effects performed, in order,
    and whether the constructor returns ([true]) or throws ([false]).
    [isHTMLElement] is [elem instanceof HTMLElement], [position] the
    computed [position] style of [elem], and [options = None] a falsy
    [options] argument. *)
Definition ScrollElement_ctor (isHTMLElement : bool) (position : String.string)
    (options : option opts) : list ctor_effect * bool :=
  if negb isHTMLElement then ([], false) else
  if negb (existsb (String.eqb position) ["absolute"; "relative"]) then ([], false) else
  match options with
  | None => ([], false)
  | Some o =>
      let eff := [AddResizeListener; AddScrollListener; ClearContainer] in
      match requireOptions o ["generator"] with
      | None => (eff, false)
      | Some _ =>
          let spinner := opt_get "spinner" o in
          let '(eff, ok) :=
            if opt_truthy spinner then
              match spinner with OFun => (eff ++ [SpinnerShown], true) | _ => (eff, false) end
            else (eff, true) in
          if negb ok then (eff, false) else
          let extraKeys :=
            filter (fun k => negb (existsb (String.eqb k) OPTIONS_values)) (map fst o) in
          let eff := match extraKeys with [] => eff | _ => eff ++ [WarnKeys extraKeys] end in
          (eff ++ [ScheduleInvalidate], true)
      end
  end.

Close Scope string_scope.

(** [a < b] on numbers that may be NaN. *)
Definition num_lt (a b : num) : bool :=
  match a, b with
  | NNum x, NNum y => Qlt_bool x y
  | NNegInf, (NNum _ | NPosInf) | NNum _, NPosInf => true
  | _, _ => false
  end.

(** [Math.min(a, b)] *)
Definition num_min (a b : num) : num :=
  match a, b with
  | NNaN, _ | _, NNaN => NNaN
  | NNum x, NNum y => NNum (if Qle_bool x y then x else y)
  | NNegInf, _ | _, NNegInf => NNegInf
  | NPosInf, _ => b
  | _, NPosInf => a
  end.

(** [n * c] for a number [n] and a non-zero [c]. *)
Definition num_mul_Q (n : num) (c : Q) : num :=
  match n with
  | NNum x => NNum (x * c)
  | NPosInf => if Qlt_bool 0 c then NPosInf else NNegInf
  | NNegInf => if Qlt_bool 0 c then NNegInf else NPosInf
  | NNaN => NNaN
  end.

(** [stretchList(index)]: the new [this.__currentScrollHeight], which is
    also the new top of the dummy element; [size = None] is a [this.__size]
    that is not a number.  Appending the dummy element is not modelled. *)
Definition stretchList (fixedSize : bool) (childSize : option Q) (size : option num)
    (cur : num) (index : Z) : num :=
  match childSize, size with
  | Some c, Some sz =>
      if fixedSize || Qeq_bool c 0 then cur else
      let childTop := (inject_Z index * c)%Q in
      let finalElement :=
        match sz with NNum n => Qeq_bool (inject_Z index) (n - 1) | _ => false end in
      if finalElement then cur else
      let maxScrollHeight := num_mul_Q sz c in
      let newDummyTop := NNum (childTop + c * 5) in
      if num_lt cur newDummyTop then num_min maxScrollHeight newDummyTop else cur
  | _, _ => cur
  end.

(** The characters of a string contain no underscore. *)
Fixpoint no_us (s : String.string) : bool :=
  match s with
  | String.EmptyString => true
  | String.String a s' => negb (Ascii.eqb a (Ascii.ascii_of_byte Byte.x5f)) && no_us s'
  end.

(** * Properties *)

(** ** Window calculator *)

Lemma numRange_Some (start N : Z) (l : list Z) :
  numRange start N = Some l ->
  l = map (fun k => start + Z.of_nat k) (seq 0 (length l)) /\
  (N <> 0 -> Z.of_nat (length l) = N) /\ l <> [].
Proof.
  unfold numRange. intros H.
  destruct ((0 <=? (if N =? 0 then 1 else N)) && ((if N =? 0 then 1 else N) <? two32))
    eqn:E; [|discriminate].
  injection H as <-. apply andb_prop in E as [E1 E2].
  apply Z.leb_le in E1.
  rewrite length_map, length_seq. repeat split.
  - intros HN. apply Z.eqb_neq in HN. rewrite HN in *. lia.
  - destruct (N =? 0) eqn:HN.
    + simpl. discriminate.
    + apply Z.eqb_neq in HN. destruct (Z.to_nat N) eqn:HT; [lia|]. simpl. discriminate.
Qed.

Lemma to_uint32_range (x : Q) : 0 <= to_uint32 x < two32.
Proof. unfold to_uint32, two32. apply Z.mod_pos_bound. lia. Qed.

Lemma to_uint32_nonneg (x : Q) :
  (0 <= x)%Q -> 0 <= Qfloor x /\ to_uint32 x = Qfloor x mod two32.
Proof.
  intros Hx. unfold to_uint32.
  apply Qle_bool_iff in Hx as Hb. rewrite Hb. split; [|reflexivity].
  apply Qle_bool_iff in Hb.
  change 0 with (Qfloor 0). apply Qfloor_resp_le. exact Hb.
Qed.

Lemma js_max_cases (a b : Q) :
  (b <= js_max a b /\ a <= js_max a b)%Q /\ (js_max a b == a \/ js_max a b == b)%Q.
Proof.
  unfold js_max. destruct (Qle_bool a b) eqn:E.
  - apply Qle_bool_iff in E. split; [split; [apply Qle_refl|exact E]|right; reflexivity].
  - assert (~ (a <= b))%Q as N by (intro C; apply Qle_bool_iff in C; congruence).
    apply Qnot_le_lt in N. split; [split; [apply Qlt_le_weak; exact N|apply Qle_refl]|].
    left; reflexivity.
Qed.

Example getChildrenInView_spec_scenario :
  getChildrenInView 0 200 25 (Some 50%Q) = Some [0; 1; 2; 3; 4].
Proof. vm_compute. reflexivity. Qed.

Example getChildrenInView_110 :
  getChildrenInView 110 200 25 (Some 50%Q) = Some [1; 2; 3; 4; 5; 6; 7].
Proof. vm_compute. reflexivity. Qed.

Lemma inject_Z_minus (x y : Z) : inject_Z (x - y) = (inject_Z x - inject_Z y)%Q.
Proof. unfold Z.sub. rewrite inject_Z_plus, inject_Z_opp. reflexivity. Qed.

Lemma Qdiv_mul_back (x c : Q) : (0 < c)%Q -> (x / c * c == x)%Q.
Proof.
  intros Hc. rewrite Qmult_comm. apply Qmult_div_r.
  intro E. rewrite E in Hc. discriminate.
Qed.

Lemma Qdiv_nonneg (x c : Q) : (0 < c)%Q -> (0 <= x)%Q -> (0 <= x / c)%Q.
Proof.
  intros Hc Hx. apply Qle_shift_div_l; [exact Hc|]. rewrite Qmult_0_l. exact Hx.
Qed.

(** The window [getChildrenInView] computes is a non-empty run of
    consecutive non-negative indices; every index starts strictly before
    [scrollOffset + viewportSize + 2 * padding]: [viewLeft] is measured
    from [rootTop] rather than from the padded [top], so the window runs
    up to [2 * padding] below the viewport; as long as
    [(scrollOffset - padding) / itemSize < 2^32] (no [>>> 0] wrap), every
    index ends strictly after [scrollOffset - padding]. *)
Theorem getChildrenInView_window (r h p c : Q) (l : list Z) :
  (0 <= r)%Q -> (0 < h)%Q -> (0 < c)%Q -> (0 <= p)%Q ->
  getChildrenInView r h p (Some c) = Some l ->
  l <> [] /\
  (exists a, 0 <= a /\ l = map (fun k => a + Z.of_nat k) (seq 0 (length l))) /\
  (forall i, In i l ->
     0 <= i /\
     (inject_Z i * c < r + h + 2 * p)%Q /\
     ((r - p < inject_Z two32 * c)%Q -> (r - p < inject_Z i * c + c)%Q)).
Proof.
  intros Hr Hh Hc Hp H. unfold getChildrenInView in H.
  assert (Qeq_bool c 0 = false) as Hc0.
  { apply not_true_iff_false. intro E. apply Qeq_bool_iff in E.
    rewrite E in Hc. discriminate. }
  rewrite Hc0 in H.
  set (top := js_max (r - p) 0) in H.
  destruct (js_max_cases (r - p) 0) as [[Htop0 Htop1] Htop2]. fold top in Htop0, Htop1, Htop2.
  assert (Htopr : (top <= r)%Q) by (destruct Htop2 as [E|E]; rewrite E; lra).
  set (qd := (top / c)%Q) in H.
  assert (Hqd : (qd * c == top)%Q) by (apply Qdiv_mul_back; exact Hc).
  assert (Hqd0 : (0 <= qd)%Q) by (apply Qdiv_nonneg; assumption).
  destruct (to_uint32_nonneg qd Hqd0) as [Hf0 Hfirst].
  set (first := to_uint32 qd) in H, Hfirst.
  set (f0 := Qfloor qd) in Hf0, Hfirst.
  assert (Hff : 0 <= first <= f0).
  { rewrite Hfirst. split; [apply Z.mod_pos_bound; unfold two32; lia|].
    apply Z.mod_le; [exact Hf0|unfold two32; lia]. }
  assert (HF0 : (inject_Z f0 <= qd)%Q) by apply Qfloor_le.
  assert (HFF : (0 <= inject_Z first <= inject_Z f0)%Q).
  { split; [change 0%Q with (inject_Z 0)|]; rewrite <- Zle_Qle; lia. }
  assert (HFc : (inject_Z first * c <= top)%Q) by nra.
  set (vd := ((h + p * 2 - (inject_Z first * c - r)) / c)%Q) in H.
  assert (Hvd : (vd * c == h + p * 2 - (inject_Z first * c - r))%Q)
    by (apply Qdiv_mul_back; exact Hc).
  assert (Hvd0 : (0 < vd)%Q) by nra.
  set (n := Qceiling vd) in H.
  assert (Hn1 : (vd <= inject_Z n)%Q) by apply Qle_ceiling.
  assert (Hn2 : (inject_Z (n - 1) < vd)%Q) by apply Qceiling_lt.
  rewrite inject_Z_minus in Hn2.
  assert (Hn : 0 < n).
  { rewrite Zlt_Qlt. eapply Qlt_le_trans; [exact Hvd0|exact Hn1]. }
  destruct (numRange_Some first n l H) as [Hl [Hlen Hne]].
  specialize (Hlen ltac:(lia)).
  split; [exact Hne|]. split; [exists first; split; [lia|exact Hl]|].
  intros i Hi. rewrite Hl in Hi. apply in_map_iff in Hi as [k [<- Hk]].
  apply in_seq in Hk.
  assert (HI : (inject_Z first <= inject_Z (first + Z.of_nat k) <= inject_Z first + inject_Z n - 1)%Q).
  { rewrite inject_Z_plus. split.
    - assert (0 <= inject_Z (Z.of_nat k))%Q
        by (change 0%Q with (inject_Z 0); rewrite <- Zle_Qle; lia). lra.
    - assert (inject_Z (Z.of_nat k) <= inject_Z n - 1)%Q.
      { change 1%Q with (inject_Z 1). rewrite <- inject_Z_minus, <- Zle_Qle. lia. }
      lra. }
  change (inject_Z 1) with 1%Q in Hn2.
  split; [lia|]. split.
  - set (I := inject_Z (first + Z.of_nat k)) in *.
    set (F := inject_Z first) in *. set (N := inject_Z n) in *.
    assert (0 <= (F + N - 1 - I) * c)%Q by (apply Qmult_le_0_compat; lra).
    assert (0 < (vd - (N - 1)) * c)%Q by (apply Qmult_lt_0_compat; lra).
    lra.
  - intros Hsmall.
    assert (Htop : (top < inject_Z two32 * c)%Q).
    { destruct Htop2 as [E|E]; rewrite E; [exact Hsmall|].
      assert (0 < inject_Z two32)%Q by (unfold Qlt; simpl; lia). nra. }
    assert (Hqd2 : (qd < inject_Z two32)%Q).
    { apply Qlt_shift_div_r; [exact Hc|]. exact Htop. }
    assert (Hf2 : f0 < two32).
    { rewrite Zlt_Qlt. eapply Qle_lt_trans; [exact HF0|exact Hqd2]. }
    assert (Hfe : first = f0) by (rewrite Hfirst; apply Z.mod_small; lia).
    assert (Hfl : (qd < inject_Z (f0 + 1))%Q) by apply Qlt_floor.
    rewrite inject_Z_plus in Hfl. rewrite <- Hfe in Hfl.
    change (inject_Z 1) with 1%Q in Hfl.
    set (I := inject_Z (first + Z.of_nat k)) in *. set (F := inject_Z first) in *.
    assert (0 <= (I - F) * c)%Q by (apply Qmult_le_0_compat; lra).
    assert (0 < (F + 1 - qd) * c)%Q by (apply Qmult_lt_0_compat; lra).
    lra.
Qed.

(** C1 (code bug): the window is meant to reach [padding] below and
    above the viewport, but with [scrollOffset = 110],
    [viewportSize = 200], [padding = 25], [itemSize = 50] it is [1..7],
    and index 7 starts at 350 > 110 + 200 + 25: the bound
    [i * itemSize <= scrollOffset + viewportSize + padding] fails. *)
Lemma getChildrenInView_upper_bound_counterexample :
  ~ (forall (r h p c : Q) (l : list Z) (i : Z),
       (0 <= r)%Q -> (0 < h)%Q -> (0 < c)%Q -> (0 <= p)%Q ->
       getChildrenInView r h p (Some c) = Some l -> In i l ->
       (inject_Z i * c <= r + h + p)%Q).
Proof.
  intros H.
  specialize (H 110%Q 200%Q 25%Q 50%Q [1; 2; 3; 4; 5; 6; 7] 7).
  assert (Hb : (inject_Z 7 * 50 <= 110 + 200 + 25)%Q).
  { apply H; first [ vm_compute; reflexivity | simpl; tauto
                    | unfold Qle, Qlt; simpl; lia ]. }
  unfold Qle in Hb. simpl in Hb. lia.
Qed.

(** Witness of [getChildrenInView_window] at the same input. *)
Lemma getChildrenInView_window_witness :
  [1; 2; 3; 4; 5; 6; 7] <> [] /\
  (exists a, 0 <= a /\ [1; 2; 3; 4; 5; 6; 7] =
     map (fun k => a + Z.of_nat k) (seq 0 (length [1; 2; 3; 4; 5; 6; 7]))) /\
  (forall i, In i [1; 2; 3; 4; 5; 6; 7] ->
     0 <= i /\ (inject_Z i * 50 < 110 + 200 + 2 * 25)%Q /\
     ((110 - 25 < inject_Z two32 * 50)%Q -> (110 - 25 < inject_Z i * 50 + 50)%Q)).
Proof.
  apply (getChildrenInView_window 110%Q 200%Q 25%Q 50%Q [1; 2; 3; 4; 5; 6; 7]);
    first [ vm_compute; reflexivity | unfold Qle, Qlt; simpl; lia ].
Defined.

(** C8: when the child size is unknown (undefined) the window
    calculator returns exactly [[0]], whatever the scroll offset,
    viewport size and padding. *)
Theorem getChildrenInView_unknown_size (r h p : Q) :
  getChildrenInView r h p None = Some [0].
Proof. reflexivity. Qed.

(** ** Eviction *)

Lemma evict_loop_sound (fuel : nat) (lim : Z) (iv pd : list Z) :
  forall i q acc q' es,
  evict_loop fuel lim iv pd i q acc = (q', es) ->
  forall x, In x es -> In x acc \/ (In x q /\ has x iv = false /\ has x pd = false).
Proof.
  induction fuel as [|fuel IH]; intros i q acc q' es H x Hx; simpl in H.
  - injection H as _ <-. left. exact Hx.
  - destruct ((Z.of_nat (length q) >? lim) && (i <? Z.of_nat (length q))).
    + destruct q as [|c q0].
      * injection H as _ <-. left. exact Hx.
      * destruct (has c iv || has c pd) eqn:Hc.
        -- destruct (IH _ _ _ _ _ H x Hx) as [A|[A B]]; [left; exact A|].
           right. split; [right; exact A|exact B].
        -- destruct (IH _ _ _ _ _ H x Hx) as [A|[A B]].
           ++ apply in_app_or in A as [A|[<-|[]]]; [left; exact A|].
              apply orb_false_iff in Hc as [H1 H2]. right. split; [left; reflexivity|].
              split; assumption.
           ++ right. split; [right; exact A|exact B].
    + injection H as _ <-. left. exact Hx.
Qed.

(** C3: an eviction pass ([evictOverflow], run by [invalidate] right
    after it stores the freshly computed window in [inView]) only
    schedules for demotion indices of the Mounted Queue that are neither
    in view nor pending; with [elementLimit = 3], indices [0..3] mounted
    in order and [2; 3] in view, the pass demotes exactly index 0 to the
    cache and leaves the queue [1; 2; 3]. *)
Theorem eviction_spares_visible_and_pending :
  (forall cfg s, exists s', evictOverflow cfg s = Ok tt s' /\
     forall es, In (TRemoveElements es) (tasks s') ->
       In (TRemoveElements es) (tasks s) \/
       (forall x, In x es -> In x (queue s) /\ has x (inView s) = false /\ has x (queries s) = false)) /\
  (exists s1 s2,
     invalidate cfg_limit3 false env_2_3 st_mounted4 = Ok tt s1 /\
     inView s1 = [2; 3] /\ queue s1 = [1; 2; 3] /\ tasks s1 = [TRemoveElements [0]] /\
     removeElements cfg_limit3 [0] s1 = Ok tt s2 /\
     cacheQueue s2 = [0] /\ map_get 0 (cache s2) = Some (el 0) /\
     domElements s2 = [1; 2; 3] /\ queue s2 = [1; 2; 3]).
Proof.
  split.
  - intros cfg s. unfold evictOverflow.
    destruct (elementLimit cfg) as [lim|]; [|eexists; split; [reflexivity|intros es H; left; exact H]].
    destruct (lim =? 0); [eexists; split; [reflexivity|intros es H; left; exact H]|].
    unfold bind, get, modify.
    destruct (evict_loop (S (length (queue s))) lim (inView s) (queries s) 0 (queue s) []) as [q' es0] eqn:E.
    destruct es0 as [|e0 es0].
    + eexists; split; [reflexivity|]. intros es H. left. exact H.
    + eexists; split; [reflexivity|]. intros es H. simpl in H.
      apply in_app_or in H as [H|[H|[]]]; [left; exact H|].
      injection H as <-. right. intros x Hx.
      destruct (evict_loop_sound _ _ _ _ _ _ _ _ _ E x Hx) as [[]|A]. exact A.
  - eexists. eexists. split; [vm_compute; reflexivity|].
    repeat split; vm_compute; reflexivity.
Qed.

(** ** Cache truncation *)

Lemma map_get_delete {V} (k x : Z) (m : list (Z * V)) :
  map_get x (map_delete k m) = if x =? k then None else map_get x m.
Proof.
  induction m as [|[k' v] m IH]; simpl.
  - destruct (x =? k); reflexivity.
  - destruct (Z.eqb_spec k' k); simpl; rewrite IH;
      destruct (Z.eqb_spec x k), (Z.eqb_spec k' x); subst; try reflexivity; lia.
Qed.

(** C6 (code bug): with the [domDelete] option given, the eviction
    throws its ReferenceError before the truncation runs, so the Cache
    Queue outgrows [cacheSize]: scrolling down with [cacheSize = 1], the
    evicted indices 0, 1, 2 all stay cached and queued, and nothing is
    forgotten.  Without [domDelete] the same run keeps only the newest
    index 2. *)
Theorem domDelete_skips_cache_truncation :
  reachable (cfg_cache1 true) (c6_s0 true) (c6_s12 true) /\
  tasks (c6_s11 true) = [TRemoveElements [2]] /\
  (exists s', fire (cfg_cache1 true) 0 (env_at 200) 0 (c6_s11 true) = Throw s') /\
  cacheQueue (c6_s9 true) = [0; 1] /\ cacheQueue (c6_s12 true) = [0; 1; 2] /\
  map_get 0 (cache (c6_s12 true)) = Some (el 0) /\
  map_get 1 (cache (c6_s12 true)) = Some (el 1) /\
  map_get 2 (cache (c6_s12 true)) = Some (el 2) /\
  cacheQueue (c6_s12 false) = [2] /\ map_get 0 (cache (c6_s12 false)) = None /\
  map_get 1 (cache (c6_s12 false)) = None /\ map_get 2 (cache (c6_s12 false)) = Some (el 2).
Proof.
  split.
  - apply (reach_next _ _ (c6_s11 true)); [|apply step_fire].
    apply (reach_next _ _ (c6_s10 true)); [|apply step_invalidate].
    apply (reach_next _ _ (c6_s9 true)); [|apply step_deliver].
    apply (reach_next _ _ (c6_s8 true)); [|apply step_fire].
    apply (reach_next _ _ (c6_s7 true)); [|apply step_invalidate].
    apply (reach_next _ _ (c6_s6 true)); [|apply step_deliver].
    apply (reach_next _ _ (c6_s5 true)); [|apply step_fire].
    apply (reach_next _ _ (c6_s4 true)); [|apply step_invalidate].
    apply (reach_next _ _ (c6_s3 true)); [|apply step_deliver].
    apply (reach_next _ _ (c6_s2 true)); [|apply step_invalidate].
    apply (reach_next _ _ (c6_s1 true)); [|apply step_deliver].
    apply (reach_next _ _ (c6_s0 true)); [apply reach_here|apply step_fire].
  - split; [vm_compute; reflexivity|].
    split; [eexists; vm_compute; reflexivity|].
    repeat split; vm_compute; reflexivity.
Qed.

(** ** updateItem and updateSize *)

(** C10: [updateItem] on an index that is not mounted returns at once:
    no generator call, no state change. *)
Theorem updateItem_unmounted (index rnd : Z) (s : St) :
  has index (domElements s) = false -> updateItem index rnd s = Ok tt s.
Proof. intros H. unfold updateItem, bind, get. rewrite H. reflexivity. Qed.

Lemma updateItem_unmounted_witness :
  has 4 (domElements st_mounted4) = false /\ updateItem 4 1 st_mounted4 = Ok tt st_mounted4.
Proof.
  split; [reflexivity|]. apply updateItem_unmounted. reflexivity.
Defined.

(** C9 (code bug): the check [typeof size !== "number" || size < 0]
    lets NaN through, as [NaN < 0] is false: [updateSize(NaN)] returns
    normally and stores NaN as the size, after which no pass loads
    anything.  Scrolled to the unmounted indices 4 and 5, the pass makes
    no generator call, while the same pass without the NaN size queries
    both.  [updateSize(0)] does not throw either: it unmounts every
    element. *)
Theorem updateSize_NaN_accepted :
  (exists s', updateSize cfg_limit3 JNaN env_2_3 st_mounted4 = Ok tt s' /\
     size s' = Some NNaN /\
     requests (outcome (invalidate cfg_limit3 false env_4_5 s')) = []) /\
  requests (outcome (invalidate cfg_limit3 false env_4_5 st_mounted4)) =
    [RGen (ISingle 4) 7; RGen (ISingle 5) 7] /\
  (exists s', updateSize cfg_limit3 (JNum 0) env_2_3 st_mounted4 = Ok tt s' /\
     size s' = Some (NNum 0) /\ domElements s' = []).
Proof.
  split; [|split].
  - eexists. split; [vm_compute; reflexivity|]. split; vm_compute; reflexivity.
  - vm_compute. reflexivity.
  - eexists. split; [vm_compute; reflexivity|]. split; vm_compute; reflexivity.
Qed.

(** ** Stale generator results *)

Ltac unfold_m :=
  unfold bind, get, modify, throw, ret, log, schedule, query in *.

Ltac unfold_set :=
  unfold set_domElements, set_inView, set_queue, set_cacheQueue, set_cache, set_queries, set_updateRequests, set_uniqueIdentifier, set_reloading, set_reloadAfterInvalidation, set_reloadingChildrenToRemove, set_childSize, set_treshold, set_size, set_lastScrollTop, set_children, set_tasks, set_requests, set_trace in *.

(** A stale result that is neither [null], [undefined] nor an empty
    array is dropped without any state change. *)
Lemma stale_result_ignored (cfg : Cfg) (ix : idx) (v : value) (u : Z) (s : St) :
  u <> 0 -> empty_result v = false -> uniqueIdentifier s <> u ->
  onListItemGenerated cfg ix v u s = Ok tt s.
Proof.
  intros Hu Hv Hs. unfold onListItemGenerated. unfold_m.
  apply Z.eqb_neq in Hu, Hs. rewrite Hu, Hv, Hs. reflexivity.
Qed.

(** A stale [null] result deletes its indices from the pending queries,
    also when a query of the current identifier is pending for them. *)
Lemma stale_empty_result_deletes (cfg : Cfg) (ix : idx) (v : value) (u : Z) (s : St) :
  u <> 0 -> empty_result v = true ->
  onListItemGenerated cfg ix v u s =
  Ok tt (set_queries (fold_left (fun q i => set_delete i q) (idx_list ix) (queries s)) s).
Proof.
  intros Hu Hv. unfold onListItemGenerated. unfold_m.
  apply Z.eqb_neq in Hu. rewrite Hu, Hv. reflexivity.
Qed.

(** C2 (code bug): after [reload()] changed the identifier from 7 to 9
    and the new pass queried index 0 again, the old query's [null]
    answer removes index 0 from the pending queries; the next pass then
    queries index 0 a second time under the current identifier 9. *)
Theorem stale_null_result_clears_current_query :
  uniqueIdentifier c2_s3 = 9 /\ queries c2_s3 = [0; 1; 2] /\
  nth_error (requests c2_s3) 0 = Some (RGen (ISingle 0) 7) /\
  uniqueIdentifier c2_s4 = 9 /\ queries c2_s4 = [1; 2] /\
  requests c2_s5 =
    [RGen (ISingle 1) 7; RGen (ISingle 2) 7; RGen (ISingle 0) 9;
     RGen (ISingle 1) 9; RGen (ISingle 2) 9; RGen (ISingle 0) 9].
Proof. repeat split; vm_compute; reflexivity. Qed.

(** ** What [addChild] changes *)

Lemma addChild_frame_holds (cfg : Cfg) (i : Z) (e : elem) (b : bool) (s : St) :
  addChild_frame s (outcome (addChild cfg i e b s)).
Proof.
  unfold addChild, addChild_frame. unfold_m. destruct b.
  - destruct (getElementById _ i _) as [old|].
    + destruct (Nat.eqb _ _); [|destruct (insert_before _ _ _) as [cs|]]; simpl;
        try (destruct (size_falsy (childSize s)); simpl; repeat split; auto; right; reflexivity);
        repeat split; auto.
    + simpl. repeat split; auto.
  - simpl. destruct (size_falsy (childSize s)); simpl; repeat split; auto; right; reflexivity.
Qed.

Lemma addChild_append_ok (cfg : Cfg) (i : Z) (e : elem) (s : St) :
  exists s', addChild cfg i e false s = Ok tt s' /\ trace s' = trace s ++ [EMount i].
Proof.
  unfold addChild. unfold_m. simpl.
  destruct (size_falsy (childSize s)); simpl; eexists; split; reflexivity.
Qed.

(** ** Reload coalescing *)

Lemma count_reload_app (a b : list task) :
  count_reload (a ++ b) = (count_reload a + count_reload b)%nat.
Proof. unfold count_reload. rewrite filter_app, length_app. reflexivity. Qed.

Lemma count_reload_batch (k : nat) (is : list Z) (v : value) (u : Z) :
  count_reload (batch_tasks k is v u) = O.
Proof.
  revert k. induction is as [|i is IH]; intros k; [reflexivity|]. apply IH.
Qed.

(** Each run of [onListItemGenerated] schedules at most one reload, and
    only when it ends a reload cycle whose deferred-reload flag was set;
    it then leaves both flags down. *)
Lemma onListItemGenerated_reload_schedule (cfg : Cfg) (ix : idx) (v : value) (u : Z) (s : St) :
  let s' := outcome (onListItemGenerated cfg ix v u s) in
  (count_reload (tasks s') <= S (count_reload (tasks s)))%nat /\
  (count_reload (tasks s') = S (count_reload (tasks s)) ->
   reloading s = true /\ reloadAfterInvalidation s = true /\
   reloading s' = false /\ reloadAfterInvalidation s' = false).
Proof.
  unfold onListItemGenerated. unfold_m.
  destruct (u =? 0); [simpl; idtac|].
  { split. lia. lia. }
  destruct (empty_result v); [simpl; split; [lia|lia]|].
  destruct (negb (uniqueIdentifier s =? u)); [simpl; split; [lia|lia]|].
  destruct ix as [i|is].
  - destruct v as [| |e| |]; try (simpl; split; lia).
    simpl.
    match goal with |- context [addChild cfg i e false ?s1] =>
      destruct (addChild_append_ok cfg i e s1) as [s2 [H2 _]];
      pose proof (addChild_frame_holds cfg i e false s1) as F;
      rewrite H2 in *; unfold addChild_frame in F; unfold_set; cbn in F
    end.
    destruct F as (_ & _ & _ & _ & _ & _ & _ & _ & F9 & F10 & _ & _ & _ & _ & F15).
    assert (Ht : count_reload (tasks s2) = count_reload (tasks s)).
    { destruct F15 as [E|E]; rewrite E; cbn [tasks]; [reflexivity|].
      rewrite count_reload_app. change (count_reload [TInvalidate]) with O. cbn [tasks]. lia. }
    destruct ((length (queries s2) =? 0)%nat && reloading s2) eqn:Hd.
    + simpl. destruct (reloadAfterInvalidation s2) eqn:Hf; simpl.
      * rewrite count_reload_app, Ht. change (count_reload [TReload]) with 1%nat. split; [lia|].
        intros _. apply andb_prop in Hd as [_ Hd].
        split; [congruence|]. split; [congruence|]. split; reflexivity.
      * rewrite Ht. split; lia.
    + simpl. rewrite Ht. split; lia.
  - simpl. rewrite count_reload_app, count_reload_batch. split; lia.
Qed.

(** C5: while a reload is in progress, [reload()] only raises the
    deferred-reload flag, however many times it is called; a generator
    callback schedules at most one extra reload, only when it ends the
    reload cycle with the flag raised, and it lowers the flag.  In the
    scenario, two [reload()] calls arrive while the reload's single query
    is outstanding and exactly one reload is scheduled when it resolves. *)
Theorem reload_requests_coalesce :
  (forall (us : list Z) (s : St), reloading s = true ->
     mfor us reload s = Ok tt (match us with [] => s | _ => set_reloadAfterInvalidation true s end)) /\
  (forall cfg ix v u s,
     let s' := outcome (onListItemGenerated cfg ix v u s) in
     (count_reload (tasks s') <= S (count_reload (tasks s)))%nat /\
     (count_reload (tasks s') = S (count_reload (tasks s)) ->
      reloading s = true /\ reloadAfterInvalidation s = true /\
      reloading s' = false /\ reloadAfterInvalidation s' = false)) /\
  (reloading c5_s4 = true /\ requests c5_s4 = [RGen (ISingle 0) 9] /\
   reloadAfterInvalidation c5_s6 = true /\ requests c5_s6 = [RGen (ISingle 0) 9] /\
   tasks c5_s7 = [TReload] /\ reloading c5_s7 = false /\ reloadAfterInvalidation c5_s7 = false).
Proof.
  split; [|split; [exact onListItemGenerated_reload_schedule|repeat split; vm_compute; reflexivity]].
  intros us. induction us as [|u us IH]; intros s Hs; [reflexivity|].
  simpl. unfold bind at 1. unfold reload at 1. unfold_m. rewrite Hs.
  rewrite (IH (set_reloadAfterInvalidation true s) Hs).
  destruct us; reflexivity.
Qed.

(** ** Cache promotion *)

Lemma has_In (x : Z) (l : list Z) : has x l = true <-> In x l.
Proof.
  unfold has. rewrite existsb_exists. split.
  - intros [y [Hy E]]. apply Z.eqb_eq in E. subst. exact Hy.
  - intros H. exists x. split; [exact H|apply Z.eqb_refl].
Qed.

Lemma has_set_add (x c : Z) (l : list Z) :
  has x (set_add c l) = (x =? c) || has x l.
Proof.
  unfold set_add. destruct (has c l) eqn:E.
  - destruct (Z.eqb_spec x c); [subst; rewrite E|]; reflexivity.
  - unfold has. rewrite existsb_app. simpl. rewrite orb_false_r, orb_comm. reflexivity.
Qed.

Lemma has_set_delete (x c : Z) (l : list Z) :
  has x (set_delete c l) = negb (x =? c) && has x l.
Proof.
  unfold set_delete, has. induction l as [|y l IH]; simpl.
  - destruct (x =? c); reflexivity.
  - destruct (Z.eqb_spec y c); simpl; rewrite IH;
      destruct (Z.eqb_spec x c), (Z.eqb_spec x y); subst; simpl; try reflexivity; lia.
Qed.

Lemma onListItemGenerated_current_elem (cfg : Cfg) (c : Z) (e : elem) (s : St) :
  uniqueIdentifier s <> 0 ->
  exists s', onListItemGenerated cfg (ISingle c) (VElem e) (uniqueIdentifier s) s = Ok tt s' /\
    domElements s' = set_add c (domElements s) /\ cache s' = map_delete c (cache s) /\
    queries s' = set_delete c (queries s) /\ requests s' = requests s /\
    uniqueIdentifier s' = uniqueIdentifier s /\ size s' = size s /\
    trace s' = trace s ++ [EMount c].
Proof.
  intros Hu. unfold onListItemGenerated. unfold_m.
  apply Z.eqb_neq in Hu. rewrite Hu. simpl. rewrite Z.eqb_refl. simpl.
  match goal with |- context [addChild cfg c e false ?s1] =>
    destruct (addChild_append_ok cfg c e s1) as [s2 [H2 T2]];
    pose proof (addChild_frame_holds cfg c e false s1) as F;
    rewrite H2 in *; unfold addChild_frame in F; unfold_set; cbn in F, T2
  end.
  destruct F as (F1 & _ & _ & _ & F5 & F6 & _ & F8 & _ & _ & _ & F12 & _ & F14 & _).
  destruct ((length (queries s2) =? 0)%nat && reloading s2); simpl;
    [destruct (reloadAfterInvalidation s2); simpl|];
    eexists; (split; [reflexivity|]); cbn; repeat split; congruence.
Qed.

Lemma load_child_frame (cfg : Cfg) (u : Z) (acc : list Z) (c : Z) (s : St) :
  uniqueIdentifier s = u -> u <> 0 ->
  exists acc' s', load_child cfg u acc c s = Ok acc' s' /\
    uniqueIdentifier s' = u /\ size s' = size s /\ requests s' = requests s /\
    (trace s' = trace s \/ trace s' = trace s ++ [EMount c]) /\
    (acc' = acc \/ acc' = acc ++ [c]) /\
    (forall x, x <> c ->
       has x (domElements s') = has x (domElements s) /\
       map_get x (cache s') = map_get x (cache s) /\
       has x (queries s') = has x (queries s)).
Proof.
  intros Hs Hu. unfold load_child. unfold_m. cbn beta.
  destruct (negb (below_size c (size s))).
  { do 2 eexists. split; [reflexivity|]. repeat split; auto. }
  destruct (has c (queries s)).
  { do 2 eexists. split; [reflexivity|]. repeat split; auto. }
  destruct (map_get c (cache s)) as [e|].
  - set (s1 := set_queue (queue s ++ [c]) s).
    assert (H1 : uniqueIdentifier s1 <> 0) by (unfold s1, set_queue; cbn; congruence).
    destruct (onListItemGenerated_current_elem cfg c e s1 H1) as
      (s2 & E & D & C & Qs & R & U & Z' & T).
    replace u with (uniqueIdentifier s1) by exact Hs. rewrite E.
    do 2 eexists. split; [reflexivity|].
    rewrite D, C, Qs, R, U, Z', T. unfold s1, set_queue.
    cbn [uniqueIdentifier size requests trace domElements cache queries].
    split; [first [exact Hs | reflexivity]|]. split; [reflexivity|]. split; [reflexivity|].
    split; [right; reflexivity|]. split; [left; reflexivity|].
    intros x Hx. rewrite has_set_add, has_set_delete, map_get_delete.
    apply Z.eqb_neq in Hx. rewrite Hx. auto.
  - do 2 eexists. split; [reflexivity|]. unfold set_queries, set_queue.
    cbn [uniqueIdentifier size requests trace domElements cache queries].
    split; [first [exact Hs | reflexivity]|]. split; [reflexivity|]. split; [reflexivity|].
    split; [left; reflexivity|]. split; [right; reflexivity|].
    intros x Hx. rewrite has_set_add. apply Z.eqb_neq in Hx. rewrite Hx. auto.
Qed.

Lemma load_child_cached (cfg : Cfg) (u : Z) (acc : list Z) (k : Z) (e : elem) (s : St) :
  uniqueIdentifier s = u -> u <> 0 -> below_size k (size s) = true ->
  has k (queries s) = false -> map_get k (cache s) = Some e ->
  exists s', load_child cfg u acc k s = Ok acc s' /\
    has k (domElements s') = true /\ map_get k (cache s') = None /\
    has k (queries s') = false /\ trace s' = trace s ++ [EMount k].
Proof.
  intros Hs Hu Hb Hq Hc. unfold load_child. unfold_m. cbn beta.
  rewrite Hb, Hq, Hc. cbn [negb].
  set (s1 := set_queue (queue s ++ [k]) s).
  assert (H1 : uniqueIdentifier s1 <> 0) by (unfold s1, set_queue; cbn; congruence).
  destruct (onListItemGenerated_current_elem cfg k e s1 H1) as
    (s2 & E & D & C & Qs & R & U & Z' & T).
  replace u with (uniqueIdentifier s1) by exact Hs. rewrite E.
  eexists. split; [reflexivity|].
  rewrite D, C, Qs, T, has_set_add, has_set_delete, map_get_delete, Z.eqb_refl.
  split; [reflexivity|]. split; [reflexivity|]. split; [reflexivity|]. reflexivity.
Qed.

Lemma mfold_app {A B} (f : B -> A -> M B) (l1 l2 : list A) (b : B) (s : St) :
  mfold f (l1 ++ l2) b s = (b' <- mfold f l1 b ;; mfold f l2 b') s.
Proof.
  revert b s. induction l1 as [|x l1 IH]; intros b s; [reflexivity|].
  simpl. unfold bind. destruct (f b x s) as [b1 s1|s1]; [|reflexivity].
  apply IH.
Qed.

(** The loading loop of a pass over indices other than [k] leaves
    [k]'s state alone, calls no generator and logs no query. *)
Lemma load_loop_frame (cfg : Cfg) (u k : Z) (L : list Z) :
  forall acc s, uniqueIdentifier s = u -> u <> 0 -> ~ In k L ->
  exists acc' s', mfold (load_child cfg u) L acc s = Ok acc' s' /\
    uniqueIdentifier s' = u /\ size s' = size s /\ requests s' = requests s /\
    (exists tr, trace s' = trace s ++ tr /\ Forall (fun ev => is_query ev = false) tr) /\
    (forall x, In x acc' -> In x acc \/ In x L) /\
    has k (domElements s') = has k (domElements s) /\
    map_get k (cache s') = map_get k (cache s) /\
    has k (queries s') = has k (queries s).
Proof.
  induction L as [|c L IH]; intros acc s Hs Hu Hk.
  - do 2 eexists. split; [reflexivity|]. repeat split; auto.
    exists []. rewrite app_nil_r. split; [reflexivity|constructor].
  - destruct (load_child_frame cfg u acc c s Hs Hu) as
      (acc1 & s1 & E1 & U1 & Z1 & R1 & T1 & A1 & F1).
    assert (Hkc : k <> c) by (intro; subst; apply Hk; left; reflexivity).
    assert (HkL : ~ In k L) by (intro; apply Hk; right; assumption).
    destruct (IH acc1 s1 U1 Hu HkL) as
      (acc2 & s2 & E2 & U2 & Z2 & R2 & [tr2 [T2 Q2]] & A2 & D2 & C2 & P2).
    destruct (F1 k Hkc) as (D1 & C1 & P1).
    exists acc2, s2. simpl. unfold bind at 1. rewrite E1, E2.
    split; [reflexivity|]. split; [exact U2|]. split; [congruence|]. split; [congruence|].
    split.
    { destruct T1 as [T1|T1].
      - exists tr2. rewrite T2, T1. split; [reflexivity|exact Q2].
      - exists (EMount c :: tr2). rewrite T2, T1, <- app_assoc. split; [reflexivity|].
        constructor; [reflexivity|exact Q2]. }
    split; [|split; [congruence|split; congruence]].
    intros x Hx. destruct (A2 x Hx) as [Hx'|Hx']; [|right; right; exact Hx'].
    destruct A1 as [Ha|Ha]; rewrite Ha in Hx'; [left; exact Hx'|].
    apply in_app_or in Hx' as [Hx'|[<-|[]]]; [left; exact Hx'|right; left; reflexivity].
Qed.

Lemma evictOverflow_frame (cfg : Cfg) (s : St) :
  exists s', evictOverflow cfg s = Ok tt s' /\
    domElements s' = domElements s /\ cache s' = cache s /\ queries s' = queries s /\
    uniqueIdentifier s' = uniqueIdentifier s /\ size s' = size s /\
    requests s' = requests s /\ trace s' = trace s.
Proof.
  unfold evictOverflow. destruct (elementLimit cfg) as [lim|].
  - destruct (lim =? 0).
    + eexists. split; [reflexivity|]. repeat split.
    + unfold bind, get, modify, schedule.
      destruct (evict_loop _ _ _ _ _ _ _) as [q' es].
      destruct es; (eexists; split; [reflexivity|]); repeat split.
  - eexists. split; [reflexivity|]. repeat split.
Qed.

Lemma query_step (rq : request) (ix : idx) (s : St) :
  query rq ix s = Ok tt (set_trace (trace s ++ [EQuery ix]) (set_requests (requests s ++ [rq]) s)).
Proof. reflexivity. Qed.

Lemma query_loop_spec (cfg : Cfg) (u : Z) (toLoad : list Z) :
  forall l s, incl l toLoad ->
  exists s', mfor l (fun c => query (RGen (ISingle c) u) (ISingle c)) s = Ok tt s' /\
    domElements s' = domElements s /\ cache s' = cache s /\ queries s' = queries s /\
    (exists rs, requests s' = requests s ++ rs /\
       forall rq x, In rq rs -> covers x rq = true -> In x toLoad) /\
    (exists tr, trace s' = trace s ++ tr /\
       forall ix x, In (EQuery ix) tr -> has x (idx_list ix) = true -> In x toLoad).
Proof.
  induction l as [|c l IH]; intros s Hl.
  - eexists. split; [reflexivity|]. repeat split.
    + exists []. rewrite app_nil_r. split; [reflexivity|intros _ _ []].
    + exists []. rewrite app_nil_r. split; [reflexivity|intros _ _ []].
  - assert (Hc : In c toLoad) by (apply Hl; left; reflexivity).
    assert (Hl' : incl l toLoad) by (intros y Hy; apply Hl; right; exact Hy).
    set (s1 := set_trace (trace s ++ [EQuery (ISingle c)])
                 (set_requests (requests s ++ [RGen (ISingle c) u]) s)).
    destruct (IH s1 Hl') as (s2 & E & D & C & P & [rs [R Rs]] & [tr [T Ts]]).
    exists s2. cbn [mfor]. unfold bind at 1. rewrite query_step. fold s1.
    cbv beta iota. rewrite E. split; [reflexivity|].
    unfold s1, set_trace, set_requests in D, C, P, R, T. cbn in D, C, P, R, T.
    split; [exact D|]. split; [exact C|]. split; [exact P|]. split.
    + exists (RGen (ISingle c) u :: rs). rewrite R, <- app_assoc. split; [reflexivity|].
      intros rq x [<-|Hrq] Hx; [|apply (Rs rq x Hrq Hx)].
      simpl in Hx. unfold has in Hx. simpl in Hx. rewrite orb_false_r in Hx.
      apply Z.eqb_eq in Hx. subst. exact Hc.
    + exists (EQuery (ISingle c) :: tr). rewrite T, <- app_assoc. split; [reflexivity|].
      intros ix x [Hq|Hq] Hx; [|apply (Ts ix x Hq Hx)].
      injection Hq as <-. simpl in Hx. unfold has in Hx. simpl in Hx. rewrite orb_false_r in Hx.
      apply Z.eqb_eq in Hx. subst. exact Hc.
Qed.

Lemma generate_all_spec (cfg : Cfg) (u : Z) (toLoad : list Z) (s : St) :
  exists s', generate_all cfg u toLoad s = Ok tt s' /\
    domElements s' = domElements s /\ cache s' = cache s /\ queries s' = queries s /\
    (exists rs, requests s' = requests s ++ rs /\
       forall rq x, In rq rs -> covers x rq = true -> In x toLoad) /\
    (exists tr, trace s' = trace s ++ tr /\
       forall ix x, In (EQuery ix) tr -> has x (idx_list ix) = true -> In x toLoad).
Proof.
  unfold generate_all. destruct toLoad as [|c l] eqn:Et.
  - eexists. split; [reflexivity|]. repeat split.
    + exists []. rewrite app_nil_r. split; [reflexivity|intros _ _ []].
    + exists []. rewrite app_nil_r. split; [reflexivity|intros _ _ []].
  - rewrite <- Et. destruct (batchLoad cfg).
    + unfold query, bind, modify, log. eexists. split; [reflexivity|].
      cbn. repeat split.
      * exists [RGen (IBatch toLoad) u]. split; [reflexivity|].
        intros rq x [<-|[]] Hx. apply has_In. exact Hx.
      * exists [EQuery (IBatch toLoad)]. split; [reflexivity|].
        intros ix x [Hq|[]] Hx. injection Hq as <-. apply has_In. exact Hx.
    + exact (query_loop_spec cfg u toLoad toLoad s (incl_refl _)).
Qed.

Lemma NoDup_map_inj {A B} (f : A -> B) (l : list A) :
  (forall a b, f a = f b -> a = b) -> NoDup l -> NoDup (map f l).
Proof.
  intros Hf. induction 1 as [|x l Hx _ IH]; simpl; constructor; [|exact IH].
  rewrite in_map_iff. intros (y & E & Y). apply Hf in E. subst. contradiction.
Qed.

Lemma getChildrenInView_NoDup (r h p : Q) (c : option Q) (l : list Z) :
  getChildrenInView r h p c = Some l -> NoDup l.
Proof.
  unfold getChildrenInView. intros H.
  destruct c as [c|]; [|injection H as <-; repeat constructor; intros []].
  destruct (Qeq_bool c 0); [injection H as <-; repeat constructor; intros []|].
  apply numRange_Some in H as [-> _].
  apply NoDup_map_inj; [|apply seq_NoDup].
  intros a b E. lia.
Qed.

(** C7: on a pass whose window holds an index [k] that is cached (in
    the cache, neither mounted nor pending) and below the size, [k] is
    mounted straight from the cache: it ends mounted, out of the cache
    and not pending, the pass logs its mount, and neither a generator
    call nor a query event of the pass covers [k]. *)
Theorem cached_index_promoted_without_query (cfg : Cfg) (env : Env) (s : St)
    (k : Z) (e : elem) (l : list Z) :
  guard cfg false env = true ->
  getChildrenInView (pass_scrollTop env s) (clientHeight env) (treshold s) (childSize s) = Some l ->
  In k l -> below_size k (size s) = true -> uniqueIdentifier s <> 0 ->
  map_get k (cache s) = Some e -> has k (domElements s) = false -> has k (queries s) = false ->
  exists s', invalidate cfg false env s = Ok tt s' /\
    has k (domElements s') = true /\ map_get k (cache s') = None /\ has k (queries s') = false /\
    (exists rs, requests s' = requests s ++ rs /\ forall rq, In rq rs -> covers k rq = false) /\
    (exists tr, trace s' = trace s ++ tr /\ In (EMount k) tr /\
       forall ix, In (EQuery ix) tr -> has k (idx_list ix) = false).
Proof.
  intros Hg Hw Hk Hb Hu Hc Hd Hq.
  unfold invalidate. rewrite Hg. cbn [negb]. unfold bind at 1, get at 1. cbv beta iota.
  unfold bind at 1, modify at 1. cbv beta iota. rewrite Hw.
  unfold bind at 1, modify at 1. cbv beta iota.
  set (s1 := set_inView (set_of_list l) (set_lastScrollTop (pass_scrollTop env s) s)).
  destruct (evictOverflow_frame cfg s1) as (s2 & E2 & D2 & C2 & P2 & U2 & Z2 & R2 & T2).
  unfold bind at 1. rewrite E2. cbv beta iota.
  unfold bind at 1, get at 1. cbv beta iota.
  unfold s1, set_inView, set_lastScrollTop in D2, C2, P2, U2, Z2, R2, T2.
  cbn [domElements cache queries uniqueIdentifier size requests trace] in D2, C2, P2, U2, Z2, R2, T2.
  set (D := filter (fun e => below_size e (size s))
              (filter (fun e => negb (has e (domElements s))) l)).
  assert (HkD : In k D).
  { unfold D. apply filter_In. split; [apply filter_In; split; [exact Hk|rewrite Hd; reflexivity]|exact Hb]. }
  assert (HnD : NoDup D) by (unfold D; apply NoDup_filter, NoDup_filter;
                             exact (getChildrenInView_NoDup _ _ _ _ _ Hw)).
  apply in_split in HkD as (D1 & D3 & ED).
  rewrite ED in HnD. pose proof (NoDup_remove_2 _ _ _ HnD) as Hn.
  rewrite in_app_iff in Hn.
  assert (Hu2 : uniqueIdentifier s2 <> 0) by congruence.
  unfold bind at 1. rewrite ED, mfold_app. unfold bind at 1.
  destruct (load_loop_frame cfg (uniqueIdentifier s2) k D1 [] s2 eq_refl Hu2
              (fun H => Hn (or_introl H)))
    as (acc1 & s3 & E3 & U3 & Z3 & R3 & [tr3 [T3 Q3]] & A3 & D3' & C3 & P3).
  rewrite E3. cbn [mfold]. unfold bind at 1.
  destruct (load_child_cached cfg (uniqueIdentifier s2) acc1 k e s3 U3 Hu2
              ltac:(congruence) ltac:(congruence) ltac:(congruence))
    as (s4 & E4 & D4 & C4 & P4 & T4).
  rewrite E4.
  pose proof (load_child_frame cfg (uniqueIdentifier s2) acc1 k s3 U3 Hu2) as F4.
  rewrite E4 in F4.
  destruct F4 as (acc4 & s4' & E4' & U4 & Z4 & R4 & _ & _ & _).
  injection E4' as <- <-.
  destruct (load_loop_frame cfg (uniqueIdentifier s2) k D3 acc1 s4 U4 Hu2
              (fun H => Hn (or_intror H)))
    as (acc5 & s5 & E5 & U5 & Z5 & R5 & [tr5 [T5 Q5]] & A5 & D5 & C5 & P5).
  rewrite E5.
  destruct (generate_all_spec cfg (uniqueIdentifier s2) acc5 s5)
    as (s6 & E6 & D6 & C6 & P6 & [rs [R6 Rs]] & [tr6 [T6 Ts]]).
  rewrite E6.
  assert (Hacc : ~ In k acc5).
  { intros H. destruct (A5 k H) as [H'|H']; [|exact (Hn (or_intror H'))].
    destruct (A3 k H') as [[]|H'']. exact (Hn (or_introl H'')). }
  exists s6. split; [reflexivity|].
  split; [congruence|]. split; [congruence|]. split; [congruence|]. split.
  - exists rs. split; [congruence|].
    intros rq Hrq. destruct (covers k rq) eqn:E; [|reflexivity].
    exfalso. exact (Hacc (Rs rq k Hrq E)).
  - exists (tr3 ++ [EMount k] ++ tr5 ++ tr6). split.
    + rewrite T6, T5, T4, T3, T2. rewrite <- !app_assoc. reflexivity.
    + split; [apply in_or_app; right; left; reflexivity|].
      intros ix Hix. destruct (has k (idx_list ix)) eqn:E; [|reflexivity].
      exfalso. rewrite !in_app_iff in Hix. destruct Hix as [Hix|[[Hix|[]]|[Hix|Hix]]].
      * rewrite Forall_forall in Q3. specialize (Q3 _ Hix). discriminate.
      * discriminate.
      * rewrite Forall_forall in Q5. specialize (Q5 _ Hix). discriminate.
      * exact (Hacc (Ts ix k Hix E)).
Qed.

Lemma cached_index_promoted_without_query_witness :
  map_get 0 (cache c7_s2) = Some (el 0) /\ has 0 (domElements c7_s2) = false /\
  has 0 (queries c7_s2) = false /\
  exists s', invalidate cfg_limit3 false env_top c7_s2 = Ok tt s' /\
    has 0 (domElements s') = true /\ map_get 0 (cache s') = None /\ has 0 (queries s') = false /\
    (exists rs, requests s' = requests c7_s2 ++ rs /\ forall rq, In rq rs -> covers 0 rq = false) /\
    (exists tr, trace s' = trace c7_s2 ++ tr /\ In (EMount 0) tr /\
       forall ix, In (EQuery ix) tr -> has 0 (idx_list ix) = false).
Proof.
  split; [vm_compute; reflexivity|]. split; [vm_compute; reflexivity|].
  split; [vm_compute; reflexivity|].
  apply (cached_index_promoted_without_query cfg_limit3 env_top c7_s2 0 (el 0) [0; 1]).
  - reflexivity.
  - vm_compute. reflexivity.
  - left. reflexivity.
  - vm_compute. reflexivity.
  - vm_compute. discriminate.
  - vm_compute. reflexivity.
  - vm_compute. reflexivity.
  - vm_compute. reflexivity.
Defined.

(** ** At most one pending call per index *)

Lemma outcome_bind {A B} (m : M A) (k : A -> M B) (s : St) (P : St -> Prop) :
  P (outcome (m s)) -> (forall a s', m s = Ok a s' -> P (outcome (k a s'))) ->
  P (outcome (bind m k s)).
Proof.
  intros H1 H2. unfold bind. destruct (m s) as [a s'|s'] eqn:E; [exact (H2 a s' eq_refl)|exact H1].
Qed.

Lemma mfor_preserve {A} (P : St -> Prop) (f : A -> M unit) (l : list A) :
  (forall x s, P s -> P (outcome (f x s))) -> forall s, P s -> P (outcome (mfor l f s)).
Proof.
  intros Hf. induction l as [|x l IH]; intros s Hs; [exact Hs|].
  simpl. apply outcome_bind; [apply Hf; exact Hs|].
  intros [] s' E. apply IH. pose proof (Hf x s Hs) as H. rewrite E in H. exact H.
Qed.

Lemma pend_ok_eq (a : Z -> nat) (s s' : St) :
  tasks s' = tasks s -> requests s' = requests s -> queries s' = queries s ->
  reloading s' = reloading s -> pend_ok a s -> pend_ok a s'.
Proof.
  unfold pend_ok, pending_count, outstanding. intros T R Q L (H1 & H2 & H3).
  rewrite T, R, Q, L. auto.
Qed.

Lemma pend_ok_weaken (a b : Z -> nat) (s : St) :
  (forall i, b i <= a i)%nat -> pend_ok a s -> pend_ok b s.
Proof.
  intros Hab (H1 & H2 & H3). split; [exact H1|]. split; [exact H2|].
  intros i. specialize (H3 i). specialize (Hab i). lia.
Qed.

Lemma list_sum_map_app {A} (f : A -> nat) (l1 l2 : list A) :
  list_sum (map f (l1 ++ l2)) = (list_sum (map f l1) + list_sum (map f l2))%nat.
Proof. rewrite map_app, list_sum_app. reflexivity. Qed.

Lemma pend_ok_sched (a : Z -> nat) (t : task) (s s' : St) :
  (forall i, count_cb i t = O) -> is_reload t = false ->
  tasks s' = tasks s ++ [t] -> requests s' = requests s -> queries s' = queries s ->
  reloading s' = reloading s -> pend_ok a s -> pend_ok a s'.
Proof.
  unfold pend_ok, pending_count, outstanding. intros Hc Hr T R Q L (H1 & H2 & H3).
  rewrite T, R, Q, L, count_reload_app. split; [exact H1|]. split.
  - unfold count_reload at 2. simpl. rewrite Hr. simpl. lia.
  - intros i. specialize (H3 i). rewrite list_sum_map_app. simpl. rewrite Hc. lia.
Qed.

Lemma addChild_pend (cfg : Cfg) (i : Z) (e : elem) (b : bool) (a : Z -> nat) (s : St) :
  pend_ok a s -> pend_ok a (outcome (addChild cfg i e b s)).
Proof.
  intros H. pose proof (addChild_frame_holds cfg i e b s) as F. unfold addChild_frame in F.
  destruct F as (_ & _ & _ & _ & _ & F6 & _ & _ & F9 & _ & _ & _ & _ & F14 & [F15|F15]).
  - exact (pend_ok_eq a s _ F15 F14 F6 F9 H).
  - exact (pend_ok_sched a TInvalidate s _ (fun _ => eq_refl) eq_refl F15 F14 F6 F9 H).
Qed.

Lemma has_fold_delete (j : Z) (l q : list Z) :
  has j (fold_left (fun q i => set_delete i q) l q) = negb (has j l) && has j q.
Proof.
  revert q. induction l as [|x l IH]; intros q; [reflexivity|].
  cbn [fold_left]. rewrite IH, has_set_delete.
  replace (has j (x :: l)) with ((j =? x) || has j l) by reflexivity.
  destruct (j =? x), (has j l), (has j q); reflexivity.
Qed.

Lemma batch_tasks_cb (j : Z) (k : nat) (is : list Z) (v : value) (u : Z) :
  list_sum (map (count_cb j) (batch_tasks k is v u)) = count_occ Z.eq_dec is j.
Proof.
  revert k. induction is as [|x is IH]; intros k; [reflexivity|].
  simpl. rewrite IH. destruct (Z.eq_dec x j) as [->|N].
  - rewrite Z.eqb_refl. reflexivity.
  - apply Z.eqb_neq in N. rewrite N. reflexivity.
Qed.

Lemma pend_ok_of_pre (a : Z -> nat) (ix : idx) (s : St) : olg_pre a ix s -> pend_ok a s.
Proof.
  intros (H1 & H2 & H3). split; [exact H1|]. split; [exact H2|].
  destruct ix as [i|is]; [exact (proj2 H3)|].
  intros j. specialize (H3 j). lia.
Qed.

Lemma onListItemGenerated_pend (cfg : Cfg) (ix : idx) (v : value) (u : Z) (a : Z -> nat) (s : St) :
  olg_pre a ix s -> pend_ok a (outcome (onListItemGenerated cfg ix v u s)).
Proof.
  intros Hp. pose proof (pend_ok_of_pre a ix s Hp) as Hs.
  destruct Hp as (L & R & Hp).
  unfold onListItemGenerated.
  destruct (u =? 0); [exact Hs|].
  destruct (empty_result v).
  { unfold modify. cbn [outcome]. unfold pend_ok, pending_count, outstanding, set_queries.
    cbn [reloading tasks requests queries]. split; [exact L|]. split; [exact R|].
    intros j. rewrite has_fold_delete. destruct (has j (idx_list ix)) eqn:Ej.
    - destruct ix as [i|is]; simpl in Ej |- *.
      + destruct Hp as [Hp _]. unfold has in Ej. simpl in Ej. rewrite orb_false_r in Ej.
        apply Z.eqb_eq in Ej. subst j. unfold pending_count, outstanding in Hp. lia.
      + specialize (Hp j). apply has_In, (count_occ_In Z.eq_dec) in Ej.
        unfold pending_count, outstanding in Hp. destruct (has j (queries s)); simpl; lia.
    - destruct Hs as (_ & _ & Hs). exact (Hs j). }
  unfold bind at 1, get at 1. cbv beta iota.
  destruct (negb (uniqueIdentifier s =? u)); [exact Hs|].
  destruct ix as [i|is].
  - destruct v as [| |e| |]; try exact Hs.
    destruct Hp as [Hi Hj].
    set (s4 := set_domElements (set_add i (domElements
                 (set_cacheQueue (remove_first i (cacheQueue
                   (set_cache (map_delete i (cache (set_queries (set_delete i (queries s)) s)))
                      (set_queries (set_delete i (queries s)) s))))
                   (set_cache (map_delete i (cache (set_queries (set_delete i (queries s)) s)))
                      (set_queries (set_delete i (queries s)) s)))))
               (set_cacheQueue (remove_first i (cacheQueue
                   (set_cache (map_delete i (cache (set_queries (set_delete i (queries s)) s)))
                      (set_queries (set_delete i (queries s)) s))))
                   (set_cache (map_delete i (cache (set_queries (set_delete i (queries s)) s)))
                      (set_queries (set_delete i (queries s)) s)))).
    assert (H4 : pend_ok a s4).
    { unfold s4, pend_ok, pending_count, outstanding. unfold_set.
      cbn [reloading tasks requests queries]. split; [exact L|]. split; [exact R|].
      intros j. rewrite has_set_delete. destruct (Z.eqb_spec j i) as [->|N].
      - unfold pending_count, outstanding in Hi. simpl. lia.
      - simpl. exact (Hj j). }
    unfold bind at 1 2 3 4, modify at 1 2 3 4. cbv beta iota. fold s4.
    destruct (addChild_append_ok cfg i e s4) as [s5 [E5 _]].
    pose proof (addChild_pend cfg i e false a s4 H4) as H5. rewrite E5 in H5.
    unfold bind at 1. rewrite E5. unfold bind at 1, get at 1. cbv beta iota.
    cbn [outcome] in H5. destruct H5 as (L5 & R5 & P5). rewrite L5, andb_false_r.
    split; [exact L5|]. split; [exact R5|exact P5].
  - unfold modify. cbn [outcome]. unfold pend_ok, pending_count, outstanding, set_tasks.
    cbn [reloading tasks requests queries]. split; [exact L|].
    rewrite count_reload_app, count_reload_batch, R. split; [reflexivity|].
    intros j. rewrite list_sum_map_app, batch_tasks_cb. specialize (Hp j).
    unfold pending_count, outstanding in Hp. lia.
Qed.

Lemma load_child_pend (cfg : Cfg) (u : Z) (a : Z -> nat) (acc : list Z) (c : Z) (s : St) :
  pend_ok (fun j => a j + count_occ Z.eq_dec acc j)%nat s ->
  after_load a (load_child cfg u acc c s).
Proof.
  intros Hs. unfold load_child. unfold bind at 1, get at 1. cbv beta iota.
  destruct (negb (below_size c (size s))); [exact Hs|].
  destruct (has c (queries s)) eqn:Hq; [exact Hs|].
  unfold bind at 1, modify at 1. cbv beta iota.
  set (s1 := set_queue (queue s ++ [c]) s).
  assert (H1 : pend_ok (fun j => a j + count_occ Z.eq_dec acc j)%nat s1)
    by (apply (pend_ok_eq _ s); try reflexivity; exact Hs).
  destruct (map_get c (cache s)) as [e|].
  - assert (Hp : olg_pre (fun j => a j + count_occ Z.eq_dec acc j)%nat (ISingle c) s1).
    { destruct H1 as (L & R & P). split; [exact L|]. split; [exact R|]. split; [|exact P].
      specialize (P c). change (queries s1) with (queries s) in P. rewrite Hq in P.
      lia. }
    pose proof (onListItemGenerated_pend cfg (ISingle c) (VElem e) u _ s1 Hp) as H2.
    unfold bind at 1. destruct (onListItemGenerated cfg (ISingle c) (VElem e) u s1) as [[] s2|s2].
    + exact H2.
    + eapply (pend_ok_weaken _ a); [|exact H2]; intros j; cbv beta; lia.
  - unfold bind at 1, modify at 1. cbv beta iota. unfold after_load, ret; cbv beta iota.
    destruct H1 as (L & R & P).
    unfold pend_ok, pending_count, outstanding, set_queries, s1, set_queue.
    cbn [reloading tasks requests queries].
    split; [exact L|]. split; [exact R|].
    intros j. rewrite count_occ_app, has_set_add. specialize (P j).
    unfold s1, set_queue, pending_count, outstanding in P. cbn [queries requests tasks] in P.
    simpl. destruct (Z.eq_dec c j) as [->|N].
    + rewrite Z.eqb_refl. rewrite Hq in P. simpl. lia.
    + rewrite (proj2 (Z.eqb_neq j c) (not_eq_sym N)). simpl. lia.
Qed.

Lemma load_loop_pend (cfg : Cfg) (u : Z) (a : Z -> nat) (L : list Z) :
  forall acc s, pend_ok (fun j => a j + count_occ Z.eq_dec acc j)%nat s ->
  after_load a (mfold (load_child cfg u) L acc s).
Proof.
  induction L as [|c L IH]; intros acc s Hs; [exact Hs|].
  simpl. unfold bind at 1. pose proof (load_child_pend cfg u a acc c s Hs) as H.
  destruct (load_child cfg u acc c s) as [acc1 s1|s1]; [|exact H].
  apply IH. exact H.
Qed.

Lemma query_loop_pend (u : Z) (a : Z -> nat) (l : list Z) :
  forall s, pend_ok (fun j => a j + count_occ Z.eq_dec l j)%nat s ->
  pend_ok a (outcome (mfor l (fun c => query (RGen (ISingle c) u) (ISingle c)) s)).
Proof.
  induction l as [|x l IH]; intros s H.
  - eapply (pend_ok_weaken _ a); [|exact H]; intros j; cbv beta; lia.
  - simpl. unfold bind at 1. rewrite query_step. cbv beta iota. apply IH.
    destruct H as (L & R & P).
    unfold pend_ok, pending_count, outstanding, set_trace, set_requests.
    cbn [reloading tasks requests queries]. split; [exact L|]. split; [exact R|].
    intros j. rewrite list_sum_map_app. specialize (P j).
    unfold pending_count, outstanding in P. simpl in P |- *.
    destruct (Z.eq_dec x j); simpl; lia.
Qed.

Lemma generate_all_pend (cfg : Cfg) (u : Z) (a : Z -> nat) (toLoad : list Z) (s : St) :
  pend_ok (fun j => a j + count_occ Z.eq_dec toLoad j)%nat s ->
  pend_ok a (outcome (generate_all cfg u toLoad s)).
Proof.
  unfold generate_all. destruct toLoad as [|c l] eqn:Et.
  - intros H. eapply (pend_ok_weaken _ a); [|exact H]; intros j; cbv beta; lia.
  - rewrite <- Et. intros H. destruct (batchLoad cfg).
    + destruct H as (L & R & P). rewrite query_step. cbn [outcome].
      unfold pend_ok, pending_count, outstanding, set_trace, set_requests.
      cbn [reloading tasks requests queries]. split; [exact L|]. split; [exact R|].
      intros j. rewrite list_sum_map_app. specialize (P j).
      unfold pending_count, outstanding in P. simpl. lia.
    + apply query_loop_pend. exact H.
Qed.

Lemma evictOverflow_pend (cfg : Cfg) (a : Z -> nat) (s : St) :
  pend_ok a s -> pend_ok a (outcome (evictOverflow cfg s)).
Proof.
  intros H. unfold evictOverflow. destruct (elementLimit cfg) as [lim|]; [|exact H].
  destruct (lim =? 0); [exact H|].
  unfold bind, get, modify, schedule.
  destruct (evict_loop _ _ _ _ _ _ _) as [q' es].
  destruct es as [|x es].
  - exact (pend_ok_eq a s _ eq_refl eq_refl eq_refl eq_refl H).
  - refine (pend_ok_sched a (TRemoveElements (x :: es)) s _ (fun _ => eq_refl) eq_refl
             _ _ _ _ H); reflexivity.
Qed.

Lemma invalidate_pend (cfg : Cfg) (force : bool) (env : Env) (s : St) :
  pend_ok (fun _ => O) s -> pend_ok (fun _ => O) (outcome (invalidate cfg force env s)).
Proof.
  intros H. unfold invalidate. destruct (negb (guard cfg force env)); [exact H|].
  unfold bind at 1, get at 1. cbv beta iota.
  unfold bind at 1, modify at 1. cbv beta iota.
  set (s1 := set_lastScrollTop (pass_scrollTop env s) s).
  assert (H1 : pend_ok (fun _ => O) s1) by exact (pend_ok_eq _ s s1 eq_refl eq_refl eq_refl eq_refl H).
  destruct (getChildrenInView _ _ _ _) as [l|]; [|exact H1].
  unfold bind at 1, modify at 1. cbv beta iota.
  set (s2 := set_inView (set_of_list l) s1).
  assert (H2 : pend_ok (fun _ => O) s2) by exact (pend_ok_eq _ s1 s2 eq_refl eq_refl eq_refl eq_refl H1).
  apply outcome_bind; [apply evictOverflow_pend; exact H2|].
  intros [] s3 E3. pose proof (evictOverflow_pend cfg _ s2 H2) as H3. rewrite E3 in H3.
  unfold bind at 1, get at 1. cbv beta iota.
  apply outcome_bind.
  - pose proof (load_loop_pend cfg (uniqueIdentifier s3) (fun _ => O)
                  (filter (fun e => below_size e (size s))
                     (filter (fun e => negb (has e (domElements s))) l)) [] s3 H3) as H4.
    destruct (mfold _ _ _ s3) as [acc s4|s4]; [|exact H4].
    eapply (pend_ok_weaken _ (fun _ => O)); [|exact H4]; intros j; cbv beta; lia.
  - intros toLoad s4 E4.
    pose proof (load_loop_pend cfg (uniqueIdentifier s3) (fun _ => O)
                  (filter (fun e => below_size e (size s))
                     (filter (fun e => negb (has e (domElements s))) l)) [] s3 H3) as H4.
    rewrite E4 in H4. apply generate_all_pend. exact H4.
Qed.

Lemma outcome_bind' {A B} (m : M A) (k : A -> M B) (s : St) (P : St -> Prop) :
  P (outcome (m s)) -> (forall a s', m s = Ok a s' -> P s' -> P (outcome (k a s'))) ->
  P (outcome (bind m k s)).
Proof.
  intros H1 H2. unfold bind. destruct (m s) as [a s'|s'] eqn:E; [|exact H1].
  exact (H2 a s' eq_refl H1).
Qed.

Ltac pend_same H := exact (pend_ok_eq _ _ _ eq_refl eq_refl eq_refl eq_refl H).

Lemma removeElements_pend (cfg : Cfg) (es : list Z) (a : Z -> nat) (s : St) :
  pend_ok a s -> pend_ok a (outcome (removeElements cfg es s)).
Proof.
  intros H. unfold removeElements. unfold bind at 1, get at 1. cbv beta iota.
  destruct (removeChildren _ _ _) as [removed cs].
  apply outcome_bind'; [pend_same H|]. intros [] s1 _ H1.
  apply outcome_bind'.
  { apply mfor_preserve; [|exact H1]. intros x s0 H0. pend_same H0. }
  intros [] s2 _ H2.
  apply outcome_bind'.
  { apply mfor_preserve; [|exact H2]. intros [i dom] s0 H0. cbv beta iota.
    unfold bind, modify, throw, ret. destruct (hasDomDelete cfg); pend_same H0. }
  intros [] s3 _ H3.
  unfold modify. destruct (truncateCache _ _ _) as [q c]. pend_same H3.
Qed.

Lemma updateSize_pend (cfg : Cfg) (arg : jsval) (env : Env) (s : St) :
  pend_ok (fun _ => O) s -> pend_ok (fun _ => O) (outcome (updateSize cfg arg env s)).
Proof.
  intros H.
  assert (B : forall n, pend_ok (fun _ => O) (outcome (updateSize_body cfg n env s))).
  { intros n. unfold updateSize_body. unfold bind at 1, get at 1. cbv beta iota.
    destruct (num_same (size s) n); [exact H|].
    apply outcome_bind'; [pend_same H|]. intros [] s1 _ H1.
    apply outcome_bind'.
    { destruct (filter (num_le_Z n) (domElements s)) as [|r rs]; [exact H1|].
      apply outcome_bind'; [pend_same H1|]. intros [] s2 _ H2.
      apply mfor_preserve; [|exact H2]. intros x s0 H0. pend_same H0. }
    intros [] s2 _ H2.
    apply outcome_bind'.
    { destruct (is_zero (Some n)); [pend_same H2|exact H2]. }
    intros [] s3 _ H3.
    destruct (is_zero (size s)); [apply invalidate_pend; exact H3|exact H3]. }
  destruct arg as [q| | | |]; [|apply B|exact H|apply B|exact H].
  unfold updateSize. destruct (Qlt_bool q 0); [exact H|apply B].
Qed.

Lemma updateItem_pend (index rnd : Z) (a : Z -> nat) (s : St) :
  pend_ok a s -> pend_ok a (outcome (updateItem index rnd s)).
Proof.
  intros H. unfold updateItem. unfold bind at 1, get at 1. cbv beta iota.
  destruct (negb (has index (domElements s))); [exact H|].
  unfold bind at 1, modify at 1. cbv beta iota. rewrite query_step. cbn [outcome].
  destruct H as (L & R & P). split; [exact L|]. split; [exact R|].
  intros i. specialize (P i). unfold pending_count, outstanding in *.
  cbn [set_trace set_requests set_updateRequests tasks requests queries] in *.
  rewrite list_sum_map_app. simpl. lia.
Qed.

Lemma onUpdated_pend (cfg : Cfg) (index rnd : Z) (v : value) (a : Z -> nat) (s : St) :
  pend_ok a s -> pend_ok a (outcome (onUpdated cfg index rnd v s)).
Proof.
  intros H. unfold onUpdated. destruct (negb (truthy v)); [exact H|].
  unfold bind at 1, get at 1. cbv beta iota.
  destruct (map_get index (updateRequests s)) as [r|]; [|exact H].
  destruct (r =? rnd); [|exact H].
  destruct (match v with VArray vs => nth 0 vs VUndefined | _ => v end); try exact H.
  apply addChild_pend. exact H.
Qed.

Lemma list_sum_remove_nth {A} (f : A -> nat) (k : nat) (l : list A) (x : A) :
  nth_error l k = Some x -> list_sum (map f l) = (list_sum (map f (remove_nth k l)) + f x)%nat.
Proof.
  revert k. induction l as [|y l IH]; intros k E; [destruct k; discriminate|].
  destruct k as [|k]; simpl in E |- *.
  - injection E as <-. lia.
  - rewrite (IH k E). lia.
Qed.

Lemma count_reload_remove_nth (k : nat) (l : list task) (x : task) :
  nth_error l k = Some x ->
  count_reload l = (count_reload (remove_nth k l) + if is_reload x then 1 else 0)%nat.
Proof.
  unfold count_reload. revert k. induction l as [|y l IH]; intros k E; [destruct k; discriminate|].
  destruct k as [|k]; simpl in E |- *.
  - injection E as <-. destruct (is_reload y); simpl; lia.
  - destruct (is_reload y); simpl; rewrite (IH k E); lia.
Qed.

Lemma deliver_pend (cfg : Cfg) (k : nat) (v : value) (s : St) :
  pend_ok (fun _ => O) s -> pend_ok (fun _ => O) (outcome (deliver cfg k v s)).
Proof.
  intros H. unfold deliver. unfold bind at 1, get at 1. cbv beta iota.
  destruct (nth_error (requests s) k) as [rq|] eqn:Ek; [|exact H].
  unfold bind at 1, modify at 1. cbv beta iota.
  set (s1 := set_requests (remove_nth k (requests s)) s).
  assert (Hc : forall i, pending_count i s = (pending_count i s1 + count_gen i rq)%nat).
  { intros i. unfold pending_count, outstanding. rewrite (list_sum_remove_nth _ k _ rq Ek).
    unfold s1, set_requests. cbn [requests tasks]. lia. }
  destruct H as (L & R & P).
  destruct rq as [ix u|i rnd].
  - apply onListItemGenerated_pend.
    split; [exact L|]. split; [exact R|].
    destruct ix as [i|is].
    + split.
      * specialize (P i). specialize (Hc i). simpl in Hc.
        destruct (Z.eq_dec i i) as [_|N]; [|contradiction].
        destruct (has i (queries s)); lia.
      * intros j. specialize (P j). specialize (Hc j). change (queries s1) with (queries s). lia.
    + intros j. specialize (P j). specialize (Hc j). change (queries s1) with (queries s).
      simpl in Hc. lia.
  - apply onUpdated_pend. split; [exact L|]. split; [exact R|].
    intros j. specialize (P j). specialize (Hc j). change (queries s1) with (queries s).
    simpl in Hc. lia.
Qed.

Lemma fire_pend (cfg : Cfg) (k : nat) (env : Env) (newUid : Z) (s : St) :
  pend_ok (fun _ => O) s -> pend_ok (fun _ => O) (outcome (fire cfg k env newUid s)).
Proof.
  intros H. unfold fire. unfold bind at 1, get at 1. cbv beta iota.
  destruct (nth_error (tasks s) k) as [t|] eqn:Ek; [|exact H].
  unfold bind at 1, modify at 1. cbv beta iota.
  set (s1 := set_tasks (remove_nth k (tasks s)) s).
  assert (Hc : forall i, pending_count i s = (pending_count i s1 + count_cb i t)%nat).
  { intros i. unfold pending_count, outstanding. rewrite (list_sum_remove_nth _ k _ t Ek).
    unfold s1, set_tasks. cbn [requests tasks]. lia. }
  destruct H as (L & R & P).
  pose proof (count_reload_remove_nth k _ t Ek) as Rk. rewrite R in Rk.
  assert (R1 : count_reload (tasks s1) = O) by (unfold s1, set_tasks; cbn [tasks]; lia).
  assert (H1 : pend_ok (fun _ => O) s1).
  { split; [exact L|]. split; [exact R1|].
    intros j. specialize (P j). specialize (Hc j). change (queries s1) with (queries s). lia. }
  destruct t as [|i v u|es|]; simpl.
  - apply invalidate_pend. exact H1.
  - apply onListItemGenerated_pend. split; [exact L|]. split; [exact R1|]. split; [|apply H1].
    specialize (P i). specialize (Hc i). simpl in Hc. rewrite Z.eqb_refl in Hc.
    destruct (has i (queries s)); lia.
  - apply removeElements_pend. exact H1.
  - simpl in Rk. lia.
Qed.

Lemma step_pend (cfg : Cfg) (s s' : St) :
  step cfg s s' -> pend_ok (fun _ => O) s -> pend_ok (fun _ => O) s'.
Proof.
  intros Hs H. destruct Hs.
  - apply invalidate_pend. exact H.
  - apply fire_pend. exact H.
  - apply deliver_pend. exact H.
  - apply updateItem_pend. exact H.
  - apply updateSize_pend. exact H.
Qed.

Lemma reachable_pend (cfg : Cfg) (u : Z) (c0 : option Q) (sz0 : option num) (s : St) :
  reachable cfg (construct cfg u c0 sz0) s -> pend_ok (fun _ => O) s.
Proof.
  induction 1 as [|s s' _ IH Hs].
  - split; [reflexivity|]. split; [reflexivity|]. intros i. simpl. lia.
  - exact (step_pend cfg s s' Hs IH).
Qed.

(** Without [reload]: in every state reached from the constructed list
    by passes, timers, producer answers, [updateItem] and [updateSize], at most one generator call covering an index is
    outstanding, and an index with an outstanding call is in [queries],
    which the loading loop of a pass skips. *)
Theorem at_most_one_pending (cfg : Cfg) (u : Z) (c0 : option Q) (sz0 : option num) (s : St) :
  reachable cfg (construct cfg u c0 sz0) s ->
  forall i, (outstanding i s <= 1)%nat /\
            (outstanding i s = 1%nat -> has i (queries s) = true).
Proof.
  intros Hr i. destruct (reachable_pend cfg u c0 sz0 s Hr) as (_ & _ & P).
  specialize (P i). unfold pending_count in P.
  destruct (has i (queries s)); split; try lia; intros; reflexivity.
Qed.

Lemma at_most_one_pending_witness :
  reachable cfg_default (construct cfg_default 7 (Some 50%Q) None) c4_s2 /\
  outstanding 0 c4_s2 = 1%nat /\ queries c4_s2 = [0; 1; 2] /\
  (outstanding 0 c4_s2 <= 1)%nat /\ (outstanding 0 c4_s2 = 1%nat -> has 0 (queries c4_s2) = true).
Proof.
  assert (Hr : reachable cfg_default (construct cfg_default 7 (Some 50%Q) None) c4_s2).
  { apply (reach_next _ _ c2_s1); [|apply step_invalidate].
    apply (reach_next _ _ c2_s0); [apply reach_here|apply step_fire]. }
  split; [exact Hr|]. split; [vm_compute; reflexivity|]. split; [vm_compute; reflexivity|].
  exact (at_most_one_pending cfg_default 7 (Some 50%Q) None c4_s2 Hr 0).
Defined.

(** C4 (code bug): with [reload()] among the operations, an index can
    have two outstanding generator calls under the current identifier.
    After the list is constructed (identifier 7) and its first pass
    queries 0, 1, 2, [reload()] draws 9 and the next pass queries 0, 1, 2
    again; the stale [null] answer for index 0 under 7 removes 0 from
    [queries], so the following pass calls the generator for index 0 a
    second time under 9 while the first call under 9 is still
    outstanding. *)
Theorem reload_stale_null_double_request :
  reachable_all cfg_default (construct cfg_default 7 (Some 50%Q) None) c2_s5 /\
  uniqueIdentifier c2_s5 = 9 /\
  outstanding_uid 9 0 c2_s4 = 1%nat /\ has 0 (queries c2_s4) = false /\
  outstanding_uid 9 0 c2_s5 = 2%nat /\ outstanding 0 c2_s5 = 2%nat.
Proof.
  split.
  - apply (reach_all_next _ _ c2_s4); [|apply step_other, step_invalidate].
    apply (reach_all_next _ _ c2_s3); [|apply step_other, step_deliver].
    apply (reach_all_next _ _ c2_s2); [|apply step_other, step_fire].
    apply (reach_all_next _ _ c2_s1); [|apply step_reload].
    apply (reach_all_next _ _ c2_s0); [apply reach_all_here|apply step_other, step_fire].
  - repeat split; vm_compute; reflexivity.
Qed.

(** * Further properties of the engine *)

(** ** Window calculator and element ids *)

(** Whenever [getChildrenInView] returns, the window it returns is non-empty and holds no index twice. *)
Theorem getChildrenInView_nonempty (r h p : Q) (c : option Q) (l : list Z) :
  getChildrenInView r h p c = Some l -> l <> [] /\ NoDup l.
Proof.
  intros H. split; [|exact (getChildrenInView_NoDup _ _ _ _ _ H)].
  unfold getChildrenInView in H.
  destruct c as [c|]; [|injection H as <-; discriminate].
  destruct (Qeq_bool c 0); [injection H as <-; discriminate|].
  apply numRange_Some in H as (_ & _ & H). exact H.
Qed.

Lemma getChildrenInView_nonempty_witness :
  [2; 3] <> [] /\ NoDup [2; 3].
Proof.
  apply (getChildrenInView_nonempty 100 100 0 (Some 50%Q)). vm_compute. reflexivity.
Defined.



Lemma no_us_uint (d : Decimal.uint) : no_us (DecimalString.NilEmpty.string_of_uint d) = true.
Proof. induction d; simpl; rewrite ?IHd; reflexivity. Qed.

Lemma no_us_js_int_string (z : Z) : no_us (js_int_string z) = true.
Proof.
  unfold js_int_string, DecimalString.NilEmpty.string_of_int.
  destruct (Z.to_int z); simpl; apply no_us_uint.
Qed.

Lemma js_int_string_inj (z z' : Z) : js_int_string z = js_int_string z' -> z = z'.
Proof.
  unfold js_int_string. intros H.
  pose proof (DecimalString.NilEmpty.isi (Z.to_int z)) as A.
  pose proof (DecimalString.NilEmpty.isi (Z.to_int z')) as B.
  rewrite H, B in A. injection A as A. apply DecimalZ.to_int_inj. symmetry. exact A.
Qed.

Lemma split_at_us (A A' X X' : String.string) :
  no_us A = true -> no_us A' = true ->
  String.append A (String.String (Ascii.ascii_of_byte Byte.x5f) X) =
  String.append A' (String.String (Ascii.ascii_of_byte Byte.x5f) X') ->
  A = A' /\ X = X'.
Proof.
  revert A'. induction A as [|a A IH]; intros A' HA HA' E; destruct A' as [|a' A']; simpl in *.
  - injection E as E. split; [reflexivity|exact E].
  - injection E as <- _. discriminate HA'.
  - injection E as -> _. discriminate HA.
  - apply andb_prop in HA as [_ HA]. apply andb_prop in HA' as [_ HA'].
    injection E as <- E. destruct (IH A' HA HA' E) as [-> ->]. split; reflexivity.
Qed.

(** [getListItemId] is injective: two (identifier, index) pairs that give the same DOM id are equal, so a lookup by id finds the child of one index of one reload generation. *)
Theorem getListItemId_injective (u i u' i' : Z) :
  getListItemId u i = getListItemId u' i' -> u = u' /\ i = i'.
Proof.
  unfold getListItemId, MODULE_NAME. simpl. intros H.
  repeat (injection H as H).
  apply split_at_us in H as [Hu H]; [|apply no_us_js_int_string|apply no_us_js_int_string].
  repeat (injection H as H).
  split; apply js_int_string_inj; assumption.
Qed.

Lemma getListItemId_injective_witness :
  getListItemId 7 3 = getListItemId 7 3 /\ (7 = 7 /\ 3 = 3).
Proof. split; [reflexivity|]. apply (getListItemId_injective 7 3 7 3). reflexivity. Defined.

(** ** Construction *)

Open Scope string_scope.

Close Scope string_scope.

(** ** The scroll height *)

(** With a known child size and a finite list size, [stretchList] keeps the scroll height a number; when the height starts within [size * childSize] it is not lowered and stays within [size * childSize]; and a height it changes becomes at most five children below the child at [index]. *)
Theorem stretchList_bounded (fixed : bool) (c n x : Q) (index : Z) :
  exists y, stretchList fixed (Some c) (Some (NNum n)) (NNum x) index = NNum y /\
    ((x <= n * c)%Q -> (x <= y /\ y <= n * c)%Q) /\
    (y = x \/ (y <= inject_Z index * c + c * 5)%Q).
Proof.
  unfold stretchList.
  destruct (fixed || Qeq_bool c 0).
  { exists x. split; [reflexivity|]. split; [intros H; split; [apply Qle_refl|exact H]|left; reflexivity]. }
  destruct (Qeq_bool (inject_Z index) (n - 1)).
  { exists x. split; [reflexivity|]. split; [intros H; split; [apply Qle_refl|exact H]|left; reflexivity]. }
  unfold num_lt, num_min, num_mul_Q, Qlt_bool.
  destruct (Qle_bool (inject_Z index * c + c * 5) x) eqn:E; simpl negb; cbv iota.
  { exists x. split; [reflexivity|]. split; [intros H; split; [apply Qle_refl|exact H]|left; reflexivity]. }
  assert (Hx : (x < inject_Z index * c + c * 5)%Q).
  { apply Qnot_le_lt. intros H. apply Qle_bool_iff in H. congruence. }
  destruct (Qle_bool (n * c) (inject_Z index * c + c * 5)) eqn:F.
  - apply Qle_bool_iff in F. exists (n * c)%Q. split; [reflexivity|].
    split; [intros H; split; [exact H|apply Qle_refl]|right; exact F].
  - assert (F' : (inject_Z index * c + c * 5 < n * c)%Q).
    { apply Qnot_le_lt. intros H. apply Qle_bool_iff in H. congruence. }
    exists (inject_Z index * c + c * 5)%Q. split; [reflexivity|].
    split; [intros _; split; [apply Qlt_le_weak; exact Hx|apply Qlt_le_weak; exact F']|].
    right. apply Qle_refl.
Qed.

(** A NaN scroll height stays NaN, and with a NaN list size [stretchList] turns a scroll height below the new dummy position into NaN. *)
Theorem stretchList_NaN :
  (forall fixed cs sz index, stretchList fixed cs sz NNaN index = NNaN) /\
  (forall c x index, ~ (c == 0)%Q -> (x < inject_Z index * c + c * 5)%Q ->
     stretchList false (Some c) (Some NNaN) (NNum x) index = NNaN).
Proof.
  split.
  - intros fixed cs sz index. unfold stretchList.
    destruct cs as [c|]; [|reflexivity]. destruct sz as [sz|]; [|reflexivity].
    destruct (fixed || Qeq_bool c 0); [reflexivity|].
    destruct sz as [n| | |]; [destruct (Qeq_bool (inject_Z index) (n - 1))| | |]; reflexivity.
  - intros c x index Hc Hx. unfold stretchList.
    destruct (Qeq_bool c 0) eqn:E; [apply Qeq_bool_iff in E; contradiction|].
    simpl orb. cbv iota. unfold num_lt, Qlt_bool.
    destruct (Qle_bool (inject_Z index * c + c * 5) x) eqn:F; [|reflexivity].
    apply Qle_bool_iff in F. exfalso. apply (Qlt_not_le _ _ Hx F).
Qed.

(** ** removeChildren *)

Lemma map_get_set {V} (k x : Z) (v : V) (m : list (Z * V)) :
  map_get x (map_set k v m) = if k =? x then Some v else map_get x m.
Proof.
  induction m as [|[k' v'] m IH]; simpl.
  - destruct (k =? x); reflexivity.
  - destruct (Z.eqb_spec k' k) as [->|Hk]; simpl.
    + destruct (k =? x); reflexivity.
    + rewrite IH. destruct (Z.eqb_spec k' x), (Z.eqb_spec k x); subst; try reflexivity; lia.
Qed.

Lemma getElementById_Some (u i : Z) (cs : list child) (c : child) :
  getElementById u i cs = Some c -> In c cs /\ c_uid c = u /\ c_index c = i.
Proof.
  unfold getElementById. intros H. apply find_some in H as [H E].
  apply andb_prop in E as [E1 E2]. apply Z.eqb_eq in E1, E2. auto.
Qed.

Lemma remove_elem_In (d : elem) (cs : list child) (c : child) :
  In c (remove_elem d cs) <-> In c cs /\ eid (c_elem c) <> eid d.
Proof.
  unfold remove_elem. rewrite filter_In, negb_true_iff, Nat.eqb_neq. reflexivity.
Qed.

Lemma removeChildren_loop (u : Z) (cs0 : list child) (es : list Z) :
  forall (P : list Z) (m : list (Z * elem)) (cs : list child),
  (forall c, In c cs -> In c cs0) ->
  (forall e d, map_get e m = Some d ->
     In e P /\ exists c, In c cs0 /\ c_uid c = u /\ c_index c = e /\ c_elem c = d) ->
  (forall e d, map_get e m = Some d -> forall c, In c cs -> eid (c_elem c) <> eid d) ->
  (forall c, In c cs0 -> (forall c', In c' cs0 -> eid (c_elem c') = eid (c_elem c) -> c' = c) ->
     (c_uid c <> u \/ ~ In (c_index c) P) -> In c cs) ->
  let r := fold_left
    (fun '(m, cs) e =>
       match getElementById u e cs with
       | Some c => (map_set e (c_elem c) m, remove_elem (c_elem c) cs)
       | None => (m, cs)
       end) es (m, cs) in
  (forall c, In c (snd r) -> In c cs0) /\
  (forall e d, map_get e (fst r) = Some d ->
     In e (P ++ es) /\ exists c, In c cs0 /\ c_uid c = u /\ c_index c = e /\ c_elem c = d) /\
  (forall e d, map_get e (fst r) = Some d -> forall c, In c (snd r) -> eid (c_elem c) <> eid d) /\
  (forall c, In c cs0 -> (forall c', In c' cs0 -> eid (c_elem c') = eid (c_elem c) -> c' = c) ->
     (c_uid c <> u \/ ~ In (c_index c) (P ++ es)) -> In c (snd r)).
Proof.
  induction es as [|e es IH]; intros P m cs H1 H2 H3 H4.
  - cbn. rewrite app_nil_r. auto.
  - cbn [fold_left]. replace (P ++ e :: es) with ((P ++ [e]) ++ es) by (rewrite <- app_assoc; reflexivity).
    destruct (getElementById u e cs) as [cf|] eqn:Ef.
    + apply getElementById_Some in Ef as (Hcf & Uf & If).
      apply IH.
      * intros c Hc. apply remove_elem_In in Hc as [Hc _]. exact (H1 c Hc).
      * intros x d Hx. rewrite map_get_set in Hx. destruct (Z.eqb_spec e x) as [<-|Hne].
        -- injection Hx as <-. split; [apply in_or_app; right; left; reflexivity|].
           exists cf. auto.
        -- destruct (H2 x d Hx) as [HP Hc]. split; [apply in_or_app; left; exact HP|exact Hc].
      * intros x d Hx c Hc. apply remove_elem_In in Hc as [Hc Hn].
        rewrite map_get_set in Hx. destruct (Z.eqb_spec e x) as [<-|Hne].
        -- injection Hx as <-. exact Hn.
        -- exact (H3 x d Hx c Hc).
      * intros c Hc Hq Ht. apply remove_elem_In. split.
        -- apply H4; [exact Hc|exact Hq|].
           destruct Ht as [Ht|Ht]; [left; exact Ht|right; intros HP; apply Ht, in_or_app; left; exact HP].
        -- intros E. specialize (Hq cf (H1 cf Hcf) (eq_sym E)). subst cf.
           destruct Ht as [Ht|Ht]; [exact (Ht Uf)|apply Ht; rewrite If; apply in_or_app; right; left; reflexivity].
    + apply IH; auto.
      * intros x d Hx. destruct (H2 x d Hx) as [HP Hc]. split; [apply in_or_app; left; exact HP|exact Hc].
      * intros c Hc Hq Ht. apply H4; [exact Hc|exact Hq|].
        destruct Ht as [Ht|Ht]; [left; exact Ht|right; intros HP; apply Ht, in_or_app; left; exact HP].
Qed.

(** [removeChildren] only removes children: each removed entry is a requested index whose child (of the given identifier) was in the list, no remaining child shares its element, and every child of another identifier or of an unrequested index (with an element of its own) stays. *)
Theorem removeChildren_detaches_requested (u : Z) (es : list Z) (cs : list child) :
  let '(removed, cs') := removeChildren u es cs in
  (forall c, In c cs' -> In c cs) /\
  (forall e d, map_get e removed = Some d ->
     In e es /\ exists c, In c cs /\ c_uid c = u /\ c_index c = e /\ c_elem c = d) /\
  (forall e d, map_get e removed = Some d -> forall c, In c cs' -> eid (c_elem c) <> eid d) /\
  (forall c, In c cs -> (forall c', In c' cs -> eid (c_elem c') = eid (c_elem c) -> c' = c) ->
     (c_uid c <> u \/ ~ In (c_index c) es) -> In c cs').
Proof.
  unfold removeChildren.
  destruct (removeChildren_loop u cs es [] [] cs) as (A & B & C & D).
  - auto.
  - intros e d H. discriminate.
  - intros e d H. discriminate.
  - intros c Hc _ _. exact Hc.
  - destruct (fold_left _ es ([], cs)) as [removed cs'] eqn:E.
    cbn [fst snd app] in A, B, C, D. auto.
Qed.

(** ** The eviction loop *)

Lemma evict_loop_queue (lim : Z) (iv pd : list Z) (q : list Z) :
  forall fuel i acc, (length q < fuel)%nat -> 0 <= i ->
  let L := Z.of_nat (length q) in
  let n := if (L >? lim) && (i <? L) then Z.max lim ((L + i) / 2) else L in
  fst (evict_loop fuel lim iv pd i q acc) = skipn (Z.to_nat (L - n)) q.
Proof.
  induction q as [|c q IH]; intros fuel i acc Hf Hi L n.
  - destruct fuel as [|fuel]; [lia|]. rewrite skipn_nil. simpl. destruct (_ && _); reflexivity.
  - destruct fuel as [|fuel]; [lia|].
    cbn [evict_loop]. fold L.
    destruct ((L >? lim) && (i <? L)) eqn:E.
    + apply andb_prop in E as [E1 E2]. apply Z.gtb_lt in E1. apply Z.ltb_lt in E2.
      replace (has c iv || has c pd) with (has c iv || has c pd) by reflexivity.
      assert (HL : L = Z.of_nat (length q) + 1) by (unfold L; simpl length; lia).
      assert (IH' : forall acc', fst (evict_loop fuel lim iv pd (i + 1) q acc') =
                      skipn (Z.to_nat (L - n) - 1) q).
      { intros acc'. rewrite (IH fuel (i + 1) acc' ltac:(simpl in Hf; lia) ltac:(lia)).
        f_equal. unfold n.
        assert (Hlt : lim < L) by exact E1.
        destruct ((Z.of_nat (length q) >? lim) && (i + 1 <? Z.of_nat (length q))) eqn:E';
          simpl andb; cbv iota.
        - apply andb_prop in E' as [E3 E4]. apply Z.gtb_lt in E3. apply Z.ltb_lt in E4.
          replace (Z.of_nat (length q) + (i + 1)) with (L + i) by lia.
          try (replace ((L >? lim) && (i <? L)) with true
            by (symmetry; apply andb_true_intro; split; [apply Z.gtb_lt|apply Z.ltb_lt]; lia)); cbv iota.
          assert (0 <= (L + i) / 2) by (apply Z.div_pos; lia).
          assert ((L + i) / 2 < L) by (apply Z.div_lt_upper_bound; lia).
          lia.
        - try (replace ((L >? lim) && (i <? L)) with true
            by (symmetry; apply andb_true_intro; split; [apply Z.gtb_lt|apply Z.ltb_lt]; lia)); cbv iota.
          rewrite andb_false_iff, Z.gtb_ltb, Z.ltb_ge, Z.ltb_ge in E'.
          assert ((L + i) / 2 < L) by (apply Z.div_lt_upper_bound; lia).
          assert (0 <= (L + i) / 2) by (apply Z.div_pos; lia).
          destruct E' as [E'|E'].
          + lia.
          + assert (L - 1 <= (L + i) / 2) by (apply Z.div_le_lower_bound; lia). lia. }
      assert (Hk : (1 <= Z.to_nat (L - n))%nat).
      { unfold n. try (replace ((L >? lim) && (i <? L)) with true
          by (symmetry; apply andb_true_intro; split; [apply Z.gtb_lt|apply Z.ltb_lt]; lia)); cbv iota.
        assert ((L + i) / 2 < L) by (apply Z.div_lt_upper_bound; lia). lia. }
      destruct (Z.to_nat (L - n)) as [|k] eqn:Ek; [lia|].
      cbn [skipn]. rewrite Nat.sub_1_r in IH'. simpl pred in IH'.
      destruct (has c iv || has c pd); apply IH'.
    + cbn [fst]. unfold n. cbv iota. rewrite Z.sub_diag. reflexivity.
Qed.

(** With an element limit [lim] (not 0), the eviction loop shifts the oldest entries off a mounted queue of length [L > lim] until its length is [max(lim, L / 2)] (integer division); a queue within the limit is left as it is. *)
Theorem evictOverflow_shifts_at_most_half (cfg : Cfg) (lim : Z) (s : St) :
  elementLimit cfg = Some lim -> lim <> 0 ->
  let L := Z.of_nat (length (queue s)) in
  let n := if L >? lim then Z.max lim (L / 2) else L in
  exists s', evictOverflow cfg s = Ok tt s' /\
    queue s' = skipn (Z.to_nat (L - n)) (queue s) /\ Z.of_nat (length (queue s')) = n.
Proof.
  intros Hl Hz L n. unfold evictOverflow. rewrite Hl.
  apply Z.eqb_neq in Hz. rewrite Hz.
  unfold bind, get, modify, schedule.
  pose proof (evict_loop_queue lim (inView s) (queries s) (queue s) (S (length (queue s))) 0 []
                ltac:(lia) ltac:(lia)) as H.
  destruct (evict_loop _ _ _ _ _ _ _) as [q' es]. cbn [fst] in H.
  assert (Hn : n = (if (L >? lim) && (0 <? L) then Z.max lim ((L + 0) / 2) else L)).
  { unfold n. rewrite Z.add_0_r. assert (HL0 : 0 <= L) by (unfold L; lia). clearbody L.
    destruct (Z.gtb_spec L lim); [|cbn [andb]; reflexivity].
    destruct (Z.ltb_spec 0 L); [cbn [andb]; reflexivity|].
    assert (L = 0) by lia. subst L. change (0 / 2) with 0. cbn [andb]. lia. }
  assert (HL : n <= L /\ 0 <= n).
  { unfold n. destruct (Z.gtb_spec L lim); [|unfold L; lia].
    assert (0 <= L / 2) by (apply Z.div_pos; unfold L; lia).
    assert (L / 2 <= L) by (apply Z.div_le_upper_bound; unfold L; lia). lia. }
  destruct es; (eexists; split; [reflexivity|]); cbn [queue set_queue set_tasks];
    (split; [rewrite H; fold L; rewrite <- Hn; reflexivity|]);
    rewrite H; fold L; rewrite <- Hn; rewrite length_skipn; fold L; lia.
Qed.

Lemma evictOverflow_shifts_at_most_half_witness :
  exists s', evictOverflow cfg_limit3 (set_queue [0; 1; 2; 3; 4; 5; 6; 7] st_mounted4) = Ok tt s' /\
    queue s' = skipn 4 [0; 1; 2; 3; 4; 5; 6; 7] /\ Z.of_nat (length (queue s')) = 4.
Proof.
  exact (evictOverflow_shifts_at_most_half cfg_limit3 3 (set_queue [0; 1; 2; 3; 4; 5; 6; 7] st_mounted4)
           eq_refl ltac:(discriminate)).
Defined.

(** ** Cache truncation *)

Lemma truncate_loop_frame (n : N) (q : list Z) :
  forall c, (exists k, fst (truncate_loop n q c) = skipn k q) /\
    forall x, ~ In x q -> map_get x (snd (truncate_loop n q c)) = map_get x c.
Proof.
  induction q as [|y q IH]; intros c; cbn [truncate_loop fst snd].
  - split; [exists O; reflexivity|reflexivity].
  - destruct (Z.of_nat (length (y :: q)) >? Z.of_N n).
    + destruct (IH (map_delete y c)) as [[k Hk] H]. split.
      * exists (S k). exact Hk.
      * intros x Hx. rewrite H by (intro; apply Hx; right; assumption).
        rewrite map_get_delete. destruct (Z.eqb_spec x y); [subst; exfalso; apply Hx; left; reflexivity|reflexivity].
    + split; [exists O; reflexivity|reflexivity].
Qed.

(** Cache truncation only shortens the cache queue from its front and only deletes cache entries of queued indices; without [cacheSize] or with [cacheSize = 0] it does nothing. *)
Theorem truncateCache_only_drops_queued (cs : option N) (q : list Z) (c : list (Z * elem)) :
  (exists k, fst (truncateCache cs q c) = skipn k q) /\
  (forall x, ~ In x q -> map_get x (snd (truncateCache cs q c)) = map_get x c) /\
  truncateCache None q c = (q, c) /\ truncateCache (Some 0%N) q c = (q, c).
Proof.
  split; [|split; [|split; reflexivity]].
  - unfold truncateCache. destruct cs as [n|]; [destruct (n =? 0)%N|];
      try (exists O; reflexivity).
    apply (truncate_loop_frame n q c).
  - intros x Hx. unfold truncateCache. destruct cs as [n|]; [destruct (n =? 0)%N|]; try reflexivity.
    apply (truncate_loop_frame n q c). exact Hx.
Qed.

Lemma skipn_S_tl {A} (k : nat) (q : list A) : skipn (S k) q = tl (skipn k q).
Proof.
  revert q. induction k as [|k IH]; intros [|x q]; try reflexivity.
  exact (IH q).
Qed.

Lemma truncate_body_iter_fst (k : nat) (q : list Z) (c : list (Z * elem)) :
  fst (Nat.iter k truncate_body (q, c)) = skipn k q.
Proof.
  induction k as [|k IH]; [reflexivity|].
  rewrite Nat.iter_succ, skipn_S_tl, <- IH.
  destruct (Nat.iter k truncate_body (q, c)) as [[|x q'] c']; reflexivity.
Qed.

(** With a negative [cacheSize] the truncation loop never ends: its guard
    still holds after any number of iterations, also once the queue is
    empty, which happens after as many iterations as it had indices. *)
Theorem truncate_loop_diverges_negative (cs : Z) (q : list Z) (c : list (Z * elem)) (k : nat) :
  cs < 0 ->
  truncate_guard cs (fst (Nat.iter k truncate_body (q, c))) = true /\
  ((length q <= k)%nat -> fst (Nat.iter k truncate_body (q, c)) = []).
Proof.
  intros H. rewrite truncate_body_iter_fst. split.
  - unfold truncate_guard. apply andb_true_intro. split.
    + destruct (Z.eqb_spec cs 0); [lia|reflexivity].
    + apply Z.gtb_lt. lia.
  - intros Hk. apply skipn_all2. exact Hk.
Qed.

(** For a positive [cacheSize = n], [truncate_loop] is the source loop:
    it runs the body [length q - n] times, the guard holds before each of
    these runs, and it fails on the queue left. *)
Theorem truncate_loop_follows_guard (n : N) (q : list Z) (c : list (Z * elem)) :
  (0 < n)%N ->
  truncate_loop n q c = Nat.iter (length q - N.to_nat n) truncate_body (q, c) /\
  (forall k, (k < length q - N.to_nat n)%nat -> truncate_guard (Z.of_N n) (skipn k q) = true) /\
  truncate_guard (Z.of_N n) (fst (truncate_loop n q c)) = false.
Proof.
  intros Hn.
  assert (Loop : forall c, truncate_loop n q c = Nat.iter (length q - N.to_nat n) truncate_body (q, c)).
  { induction q as [|y q IH]; intros c'; [reflexivity|].
    cbn [truncate_loop]. destruct (Z.of_nat (length (y :: q)) >? Z.of_N n) eqn:E.
    - apply Z.gtb_lt in E. cbn [length] in E |- *.
      replace (S (length q) - N.to_nat n)%nat with (S (length q - N.to_nat n)) by lia.
      rewrite Nat.iter_succ_r. exact (IH _).
    - rewrite Z.gtb_ltb in E. apply Z.ltb_ge in E. cbn [length] in E |- *.
      replace (S (length q) - N.to_nat n)%nat with O by lia. reflexivity. }
  assert (G : (n =? 0)%N = false) by (apply N.eqb_neq; lia).
  split; [apply Loop|split].
  - intros k Hk. unfold truncate_guard. apply andb_true_intro. split.
    + destruct (Z.eqb_spec (Z.of_N n) 0); [lia|reflexivity].
    + apply Z.gtb_lt. rewrite length_skipn. lia.
  - rewrite Loop, truncate_body_iter_fst. unfold truncate_guard.
    rewrite length_skipn. apply andb_false_intro2.
    rewrite Z.gtb_ltb. apply Z.ltb_ge. lia.
Qed.

(** ** The deferred eviction *)

Lemma mfor_log_ok (l : list Z) :
  forall s, exists s', mfor l (fun i => log (EUnmount i)) s = Ok tt s' /\
    children s' = children s /\ cache s' = cache s /\ domElements s' = domElements s /\
    cacheQueue s' = cacheQueue s.
Proof.
  induction l as [|x l IH]; intros s; [eexists; split; [reflexivity|auto]|].
  cbn [mfor]. unfold bind at 1, log at 1, modify at 1.
  destruct (IH (set_trace (trace s ++ [EUnmount x]) s)) as (s' & E & H).
  exists s'. split; [exact E|exact H].
Qed.

Lemma removeElements_unfold (cfg : Cfg) (es : list Z) (s : St) :
  removeElements cfg es s =
  let '(removed, cs) := removeChildren (uniqueIdentifier s) es (children s) in
  (mfor (map fst removed) (fun i => log (EUnmount i)) ;;;
   mfor removed (fun '(i, dom) =>
    modify (fun s => set_cacheQueue (cacheQueue s ++ [i]) s) ;;;
    modify (fun s => set_cache (map_set i dom (cache s)) s) ;;;
    modify (fun s => set_domElements (set_delete i (domElements s)) s) ;;;
    if hasDomDelete cfg then throw else ret tt) ;;;
  modify (fun s =>
    let '(q, c) := truncateCache (cacheSize cfg) (cacheQueue s) (cache s) in
    set_cache c (set_cacheQueue q s))) (set_children cs s).
Proof.
  unfold removeElements. unfold bind at 1, get at 1. cbv beta iota.
  destruct (removeChildren _ _ _) as [removed cs]. reflexivity.
Qed.

(** With the [domDelete] option set, the deferred eviction throws (a ReferenceError for the unbound [__domDelete]) exactly when at least one requested element was found in the list. *)
Theorem removeElements_domDelete_throws (cfg : Cfg) (es : list Z) (s : St) :
  hasDomDelete cfg = true ->
  ((exists s', removeElements cfg es s = Throw s') <->
   fst (removeChildren (uniqueIdentifier s) es (children s)) <> []).
Proof.
  intros Hd. rewrite removeElements_unfold.
  destruct (removeChildren _ _ _) as [removed cs]. cbn [fst].
  unfold bind at 1.
  destruct (mfor_log_ok (map fst removed) (set_children cs s)) as (s1 & E1 & _).
  rewrite E1. cbv beta iota.
  destruct removed as [|[i d] removed].
  - split; [intros [s' H]; discriminate H|intros H; contradiction H; reflexivity].
  - split; [intros _; discriminate|intros _].
    cbn [mfor]. unfold bind. cbn beta iota. unfold modify. rewrite Hd. unfold throw.
    eexists. reflexivity.
Qed.

Lemma map_set_keys {V} (k : Z) (v : V) (m : list (Z * V)) :
  forall x, In x (map fst (map_set k v m)) <-> x = k \/ In x (map fst m).
Proof.
  induction m as [|[k' v'] m IH]; intros x; simpl.
  - split; (intros [H|[]]; left; symmetry; exact H).
  - destruct (Z.eqb_spec k' k) as [->|Hk]; simpl.
    + split; [intros [H|H]; [left; symmetry; exact H|right; right; exact H]|].
      intros [H|[H|H]]; [left; symmetry; exact H|left; exact H|right; exact H].
    + rewrite IH. tauto.
Qed.

Lemma map_set_NoDup {V} (k : Z) (v : V) (m : list (Z * V)) :
  NoDup (map fst m) -> NoDup (map fst (map_set k v m)).
Proof.
  induction m as [|[k' v'] m IH]; intros H; simpl.
  - constructor; [intros []|constructor].
  - inversion H as [|? ? Hn Hd]; subst.
    destruct (Z.eqb_spec k' k) as [->|Hk]; simpl; [constructor; assumption|].
    constructor; [|apply IH; exact Hd].
    rewrite map_set_keys. intros [E|E]; [congruence|contradiction].
Qed.

Lemma map_get_In {V} (k : Z) (d : V) (m : list (Z * V)) :
  map_get k m = Some d -> In (k, d) m.
Proof.
  induction m as [|[k' v'] m IH]; simpl; [discriminate|].
  destruct (Z.eqb_spec k' k) as [->|_]; [intros H; injection H as ->; left; reflexivity|].
  intros H. right. exact (IH H).
Qed.

Lemma removeChildren_NoDup (u : Z) (es : list Z) (cs : list child) :
  NoDup (map fst (fst (removeChildren u es cs))).
Proof.
  unfold removeChildren.
  assert (G : forall m cs, NoDup (map fst m) -> NoDup (map fst (fst (fold_left
    (fun '(m, cs) e =>
       match getElementById u e cs with
       | Some c => (map_set e (c_elem c) m, remove_elem (c_elem c) cs)
       | None => (m, cs)
       end) es (m, cs))))).
  { induction es as [|e es IH]; intros m cs' H; [exact H|].
    cbn [fold_left]. destruct (getElementById u e cs'); apply IH; [apply map_set_NoDup|]; exact H. }
  apply G. constructor.
Qed.

Lemma demote_loop (R : list (Z * elem)) :
  forall s, NoDup (map fst R) ->
  exists s', mfor R (fun '(i, dom) =>
    modify (fun s => set_cacheQueue (cacheQueue s ++ [i]) s) ;;;
    modify (fun s => set_cache (map_set i dom (cache s)) s) ;;;
    modify (fun s => set_domElements (set_delete i (domElements s)) s) ;;;
    if false then throw else ret tt) s = Ok tt s' /\
    children s' = children s /\
    forall i d, In (i, d) R ->
      map_get i (cache s') = Some d /\ has i (domElements s') = false /\ In i (cacheQueue s').
Proof.
  set (F := fun '(i, dom) =>
    modify (fun s => set_cacheQueue (cacheQueue s ++ [i]) s) ;;;
    modify (fun s => set_cache (map_set i dom (cache s)) s) ;;;
    modify (fun s => set_domElements (set_delete i (domElements s)) s) ;;;
    (if false then throw else ret tt) : M unit).
  assert (HF : forall i d s, F (i, d) s = Ok tt
    (set_domElements (set_delete i (domElements s))
      (set_cache (map_set i d (cache s)) (set_cacheQueue (cacheQueue s ++ [i]) s)))).
  { intros i d s. reflexivity. }
  (* the other indices of the loop leave [i] alone *)
  assert (Hfr : forall i R' s0 s0', ~ In i (map fst R') -> mfor R' F s0 = Ok tt s0' ->
      map_get i (cache s0') = map_get i (cache s0) /\
      has i (domElements s0') = has i (domElements s0) /\
      (In i (cacheQueue s0) -> In i (cacheQueue s0')) /\ children s0' = children s0).
  { intros i. induction R' as [|[k v] R' IHR]; intros s0 s0' Hni E0.
    - injection E0 as <-. auto.
    - cbn [mfor] in E0. unfold bind at 1 in E0. rewrite HF in E0.
      assert (Hik : i <> k) by (intro; subst; apply Hni; left; reflexivity).
      destruct (IHR _ _ (fun H' => Hni (or_intror H')) E0) as (A & B & Cq & Ch).
      cbn [cache domElements cacheQueue children set_domElements set_cache set_cacheQueue] in A, B, Cq, Ch.
      rewrite map_get_set in A. rewrite has_set_delete in B.
      destruct (Z.eqb_spec k i) as [|_]; [congruence|].
      destruct (Z.eqb_spec i k) as [|_]; [congruence|].
      split; [exact A|]. split; [exact B|]. split; [|exact Ch].
      intros Hq. apply Cq. apply in_or_app. left. exact Hq. }
  induction R as [|[i d] R IH]; intros s Hn.
  - eexists. split; [reflexivity|]. split; [reflexivity|intros i d []].
  - inversion Hn as [|? ? Hi HR]; subst.
    set (s1 := set_domElements (set_delete i (domElements s))
                 (set_cache (map_set i d (cache s)) (set_cacheQueue (cacheQueue s ++ [i]) s))).
    destruct (IH s1 HR) as (s' & E & C & H).
    exists s'. cbn [mfor]. unfold bind at 1. rewrite HF. fold s1.
    rewrite E. split; [reflexivity|]. split; [rewrite C; reflexivity|].
    intros j e [Hje|Hje]; [|exact (H j e Hje)].
    injection Hje as <- <-.
    destruct (Hfr i R s1 s' Hi E) as (A & B & Cq & _).
    rewrite A, B. unfold s1. cbn [cache domElements cacheQueue set_domElements set_cache set_cacheQueue].
    rewrite map_get_set, has_set_delete, !Z.eqb_refl. split; [reflexivity|]. split; [reflexivity|].
    apply Cq. cbn. apply in_or_app. right. left. reflexivity.
Qed.

(** Without [domDelete] and [cacheSize], the deferred eviction detaches the requested children and moves each removed element to the cache: it is cached, no longer mounted, and its index is in the cache queue. *)
Theorem removeElements_caches_removed (cfg : Cfg) (es : list Z) (s : St) :
  hasDomDelete cfg = false -> cacheSize cfg = None ->
  let '(removed, cs) := removeChildren (uniqueIdentifier s) es (children s) in
  exists s', removeElements cfg es s = Ok tt s' /\ children s' = cs /\
    forall i d, map_get i removed = Some d ->
      map_get i (cache s') = Some d /\ has i (domElements s') = false /\ In i (cacheQueue s').
Proof.
  intros Hd Hc. rewrite removeElements_unfold.
  pose proof (removeChildren_NoDup (uniqueIdentifier s) es (children s)) as Hn.
  destruct (removeChildren _ _ _) as [removed cs]. cbn [fst] in Hn.
  unfold bind at 1.
  destruct (mfor_log_ok (map fst removed) (set_children cs s)) as (s1 & E1 & C1 & _).
  rewrite E1. cbv beta iota. unfold bind at 1. rewrite Hd.
  destruct (demote_loop removed s1 Hn) as (s2 & E2 & C2 & H2).
  rewrite E2. unfold modify. rewrite Hc. cbn [truncateCache].
  eexists. split; [reflexivity|]. split.
  - cbn. rewrite C2, C1. reflexivity.
  - intros i d Hi. apply map_get_In in Hi. destruct (H2 i d Hi) as (A & B & Cq).
    cbn. auto.
Qed.

Lemma removeElements_domDelete_throws_witness :
  exists s', removeElements (mkCfg (Some 3) None false false true 0%Q) [0] st_mounted4 = Throw s'.
Proof.
  apply (proj2 (removeElements_domDelete_throws (mkCfg (Some 3) None false false true 0%Q) [0]
                  st_mounted4 eq_refl)).
  vm_compute. discriminate.
Defined.

Lemma removeElements_caches_removed_witness :
  let '(removed, cs) := removeChildren (uniqueIdentifier st_mounted4) [0] (children st_mounted4) in
  exists s', removeElements cfg_limit3 [0] st_mounted4 = Ok tt s' /\ children s' = cs /\
    forall i d, map_get i removed = Some d ->
      map_get i (cache s') = Some d /\ has i (domElements s') = false /\ In i (cacheQueue s').
Proof. exact (removeElements_caches_removed cfg_limit3 [0] st_mounted4 eq_refl eq_refl). Defined.

(** ** Generator callbacks, updateItem and reload *)

Lemma olg_frame (cfg : Cfg) (ix : idx) (v : value) (u : Z) (s : St) :
  let s' := outcome (onListItemGenerated cfg ix v u s) in
  requests s' = requests s /\ size s' = size s /\ uniqueIdentifier s' = uniqueIdentifier s /\
  (forall x, has x (domElements s') = true -> has x (domElements s) = true \/ In x (idx_list ix)) /\
  (forall x, ~ In x (idx_list ix) ->
     has x (queries s') = has x (queries s) /\ has x (domElements s') = has x (domElements s) /\
     map_get x (cache s') = map_get x (cache s)).
Proof.
  assert (Same : forall s', s' = s ->
    requests s' = requests s /\ size s' = size s /\ uniqueIdentifier s' = uniqueIdentifier s /\
    (forall x, has x (domElements s') = true -> has x (domElements s) = true \/ In x (idx_list ix)) /\
    (forall x, ~ In x (idx_list ix) ->
       has x (queries s') = has x (queries s) /\ has x (domElements s') = has x (domElements s) /\
       map_get x (cache s') = map_get x (cache s))).
  { intros s' ->. split; [reflexivity|]. split; [reflexivity|]. split; [reflexivity|]. split; auto. }
  destruct (Z.eqb_spec u 0) as [->|Hu].
  { apply Same. reflexivity. }
  destruct (empty_result v) eqn:Ev.
  { rewrite (stale_empty_result_deletes cfg ix v u s Hu Ev). cbn [outcome].
    unfold set_queries. cbn [requests size uniqueIdentifier domElements queries cache].
    split; [reflexivity|]. split; [reflexivity|]. split; [reflexivity|]. split; [auto|].
    intros x Hx. rewrite has_fold_delete.
    replace (has x (idx_list ix)) with false by (symmetry; apply not_true_iff_false; rewrite has_In; exact Hx).
    auto. }
  destruct (Z.eqb_spec (uniqueIdentifier s) u) as [Hs|Hs].
  2:{ rewrite (stale_result_ignored cfg ix v u s Hu Ev (fun H => Hs H)). apply Same. reflexivity. }
  subst u. destruct ix as [i|is].
  - destruct v as [| |e| |];
      try (apply Same; unfold onListItemGenerated, bind, get, throw;
           rewrite (proj2 (Z.eqb_neq _ _) Hu), Ev, Z.eqb_refl; reflexivity).
    destruct (onListItemGenerated_current_elem cfg i e s Hu) as (s2 & E & D & C & Q' & R & U & Z' & _).
    rewrite E. cbn [outcome]. rewrite D, C, Q', R, U, Z'.
    split; [reflexivity|]. split; [reflexivity|]. split; [reflexivity|]. split.
    + intros x Hx. rewrite has_set_add in Hx. apply orb_true_iff in Hx as [Hx|Hx].
      * right. apply Z.eqb_eq in Hx. left. symmetry. exact Hx.
      * left. exact Hx.
    + intros x Hx. assert (Hxi : x <> i) by (intro; subst; apply Hx; left; reflexivity).
      apply Z.eqb_neq in Hxi.
      rewrite has_set_delete, has_set_add, map_get_delete, Hxi. auto.
  - unfold onListItemGenerated, bind, get, modify.
    rewrite (proj2 (Z.eqb_neq _ _) Hu), Ev, Z.eqb_refl. cbn [negb outcome].
    unfold set_tasks. cbn [requests size uniqueIdentifier domElements queries cache].
    split; [reflexivity|]. split; [reflexivity|]. split; [reflexivity|]. split; auto.
Qed.

(** A generator callback leaves every index it was not called for as it was (pending, mounted and cached), calls no generator, and keeps the list size and the reload identifier. *)
Theorem onListItemGenerated_touches_only_its_indices (cfg : Cfg) (ix : idx) (v : value) (u : Z) (s : St) :
  let s' := outcome (onListItemGenerated cfg ix v u s) in
  requests s' = requests s /\ size s' = size s /\ uniqueIdentifier s' = uniqueIdentifier s /\
  (forall x, ~ In x (idx_list ix) ->
     has x (queries s') = has x (queries s) /\ has x (domElements s') = has x (domElements s) /\
     map_get x (cache s') = map_get x (cache s)).
Proof.
  destruct (olg_frame cfg ix v u s) as (R & Z' & U & _ & F).
  split; [exact R|]. split; [exact Z'|]. split; [exact U|exact F].
Qed.

(** A current, non-empty result for a single index that is not an HTMLElement (e.g. a one-element array) throws before any state change: the index stays pending and nothing is mounted. *)
Theorem onListItemGenerated_single_nonelem_throws (cfg : Cfg) (i : Z) (v : value) (s : St) :
  uniqueIdentifier s <> 0 -> empty_result v = false -> (forall e, v <> VElem e) ->
  onListItemGenerated cfg (ISingle i) v (uniqueIdentifier s) s = Throw s.
Proof.
  intros Hu Hv He. unfold onListItemGenerated. unfold_m.
  apply Z.eqb_neq in Hu. rewrite Hu, Hv, Z.eqb_refl. cbn [negb].
  destruct v; try reflexivity. exfalso. exact (He e eq_refl).
Qed.

Lemma onListItemGenerated_single_nonelem_throws_witness :
  onListItemGenerated cfg_limit3 (ISingle 5) (VArray [VOther true []])
    (uniqueIdentifier st_mounted4) st_mounted4 = Throw st_mounted4.
Proof.
  apply onListItemGenerated_single_nonelem_throws;
    [vm_compute; discriminate | reflexivity | intros e; discriminate].
Defined.

Lemma updateItem_mounted_step (index rnd : Z) (s : St) :
  has index (domElements s) = true ->
  updateItem index rnd s =
  Ok tt (set_trace (trace s ++ [EQuery (ISingle index)])
          (set_requests (requests s ++ [RUpd index rnd])
            (set_updateRequests (map_set index rnd (updateRequests s)) s))).
Proof. intros H. unfold updateItem, bind, get. rewrite H. reflexivity. Qed.

(** Two [updateItem] calls on a mounted index both call the generator, but once the second has been issued the callback of the first is ignored. *)
Theorem updateItem_last_request_wins (cfg : Cfg) (index r1 r2 : Z) (v : value) (s : St) :
  has index (domElements s) = true -> r1 <> r2 ->
  let s2 := outcome ((updateItem index r1 ;;; updateItem index r2) s) in
  requests s2 = requests s ++ [RUpd index r1; RUpd index r2] /\
  onUpdated cfg index r1 v s2 = Ok tt s2.
Proof.
  intros Hd Hr. unfold bind at 1. rewrite (updateItem_mounted_step _ _ _ Hd).
  rewrite updateItem_mounted_step by exact Hd.
  cbn [outcome]. split.
  { cbn [requests set_trace set_requests set_updateRequests]. rewrite <- app_assoc. reflexivity. }
  unfold onUpdated. destruct (negb (truthy v)); [reflexivity|].
  unfold bind at 1, get at 1.
  cbn [updateRequests set_trace set_requests set_updateRequests]. rewrite map_get_set, Z.eqb_refl.
  replace (r2 =? r1) with false by (symmetry; apply Z.eqb_neq; congruence). reflexivity.
Qed.

Lemma updateItem_last_request_wins_witness :
  let s2 := outcome ((updateItem 1 10 ;;; updateItem 1 20) st_mounted4) in
  requests s2 = requests st_mounted4 ++ [RUpd 1 10; RUpd 1 20] /\
  onUpdated cfg_limit3 1 10 (VElem (mkElem 9 50)) s2 = Ok tt s2.
Proof.
  apply updateItem_last_request_wins; [reflexivity | discriminate].
Defined.

(** A [reload] that is not deferred unmounts everything, takes the new identifier and forgets the pending item updates: every outstanding [updateItem] callback is then ignored and [updateItem] does nothing. *)
Theorem reload_cancels_updates (cfg : Cfg) (newUid : Z) (s : St) :
  reloading s = false ->
  let s1 := outcome (reload newUid s) in
  domElements s1 = [] /\ uniqueIdentifier s1 = newUid /\ reloading s1 = true /\
  (forall i r v, onUpdated cfg i r v s1 = Ok tt s1) /\
  (forall i r, updateItem i r s1 = Ok tt s1).
Proof.
  intros Hr. unfold reload. unfold_m. rewrite Hr. cbn [outcome domElements uniqueIdentifier reloading].
  split; [reflexivity|]. split; [reflexivity|]. split; [reflexivity|]. split.
  - intros i r v. unfold onUpdated. unfold_m. destruct (negb (truthy v)); reflexivity.
  - intros i r. reflexivity.
Qed.

Lemma reload_cancels_updates_witness :
  let s1 := outcome (reload 42 st_mounted4) in
  domElements s1 = [] /\ uniqueIdentifier s1 = 42 /\ reloading s1 = true /\
  (forall i r v, onUpdated cfg_limit3 i r v s1 = Ok tt s1) /\
  (forall i r, updateItem i r s1 = Ok tt s1).
Proof. apply reload_cancels_updates. reflexivity. Defined.

(** ** What an invalidation pass requests *)

Lemma load_child_gen (cfg : Cfg) (u : Z) (acc : list Z) (c : Z) (s : St) :
  let r := load_child cfg u acc c s in
  size (outcome r) = size s /\ requests (outcome r) = requests s /\
  (forall x, has x (domElements (outcome r)) = true ->
     has x (domElements s) = true \/ (x = c /\ below_size c (size s) = true)) /\
  (forall x, x <> c -> has x (queries (outcome r)) = has x (queries s)) /\
  (forall acc' s', r = Ok acc' s' ->
     acc' = acc \/ (acc' = acc ++ [c] /\ has c (queries s) = false /\ below_size c (size s) = true)).
Proof.
  intros r. assert (Hr : r = load_child cfg u acc c s) by reflexivity. clearbody r.
  unfold load_child, bind at 1, get at 1 in Hr. cbv beta iota in Hr.
  destruct (below_size c (size s)) eqn:Eb; cbn [negb] in Hr.
  2:{ subst r. cbn [outcome]. split; [reflexivity|]. split; [reflexivity|]. split; [auto|]. split; [auto|].
      intros acc' s' E. injection E as <- _. left; reflexivity. }
  destruct (has c (queries s)) eqn:Eq.
  { subst r. cbn [outcome]. split; [reflexivity|]. split; [reflexivity|]. split; [auto|]. split; [auto|].
    intros acc' s' E. injection E as <- _. left; reflexivity. }
  unfold bind at 1, modify at 1 in Hr. cbv beta iota in Hr.
  destruct (map_get c (cache s)) as [e|]; subst r.
  - set (s1 := set_queue (queue s ++ [c]) s).
    destruct (olg_frame cfg (ISingle c) (VElem e) u s1) as (R & Z' & _ & D & F).
    unfold bind, ret. destruct (onListItemGenerated cfg (ISingle c) (VElem e) u s1) as [a s2|s2];
      cbn [outcome] in *; unfold s1, set_queue in *; cbn [size requests domElements queries] in *.
    + split; [exact Z'|]. split; [exact R|]. split.
      * intros x Hx. destruct (D x Hx) as [H|[H|[]]]; [left; exact H|right; split; [symmetry; exact H|first [exact Eb | reflexivity]]].
      * split; [intros x Hx; apply F; intros [H|[]]; congruence|].
        intros acc' s' E. injection E as <- _. left; reflexivity.
    + split; [exact Z'|]. split; [exact R|]. split.
      * intros x Hx. destruct (D x Hx) as [H|[H|[]]]; [left; exact H|right; split; [symmetry; exact H|first [exact Eb | reflexivity]]].
      * split; [intros x Hx; apply F; intros [H|[]]; congruence|]. discriminate.
  - unfold bind, modify, ret. cbn [outcome]. unfold set_queries, set_queue.
    cbn [size requests domElements queries].
    split; [reflexivity|]. split; [reflexivity|]. split; [auto|]. split.
    + intros x Hx. rewrite has_set_add. apply Z.eqb_neq in Hx. rewrite Hx. reflexivity.
    + intros acc' s' E. injection E as <- _. right. auto.
Qed.

Lemma load_loop_gen (cfg : Cfg) (u : Z) (L : list Z) :
  NoDup L -> forall acc s,
  let r := mfold (load_child cfg u) L acc s in
  size (outcome r) = size s /\ requests (outcome r) = requests s /\
  (forall x, has x (domElements (outcome r)) = true ->
     has x (domElements s) = true \/ below_size x (size s) = true) /\
  (forall acc' s', r = Ok acc' s' -> forall x, In x acc' ->
     In x acc \/ (In x L /\ has x (queries s) = false /\ below_size x (size s) = true)).
Proof.
  induction 1 as [|c L Hc HL IH]; intros acc s.
  - cbn. split; [reflexivity|]. split; [reflexivity|]. split; [auto|].
    intros acc' s' E x Hx. injection E as <- _. left; exact Hx.
  - intros r. assert (Hr : r = mfold (load_child cfg u) (c :: L) acc s) by reflexivity. clearbody r.
    cbn [mfold] in Hr. destruct (load_child_gen cfg u acc c s) as (Z1 & R1 & D1 & Q1 & A1).
    unfold bind at 1 in Hr. destruct (load_child cfg u acc c s) as [acc1 s1|s1]; subst r; cbn [outcome] in *.
    + destruct (IH acc1 s1) as (Z2 & R2 & D2 & A2).
      split; [congruence|]. split; [congruence|]. split.
      * intros x Hx. destruct (D2 x Hx) as [H|H].
        -- destruct (D1 x H) as [H'|[-> H']]; [left; exact H'|right; exact H'].
        -- right. rewrite <- Z1. exact H.
      * intros acc' s' E x Hx. destruct (A2 acc' s' E x Hx) as [H|(HxL & Hq & Hb)].
        -- destruct (A1 acc1 s1 eq_refl) as [->|(-> & Hq & Hb)]; [left; exact H|].
           apply in_app_or in H as [H|[<-|[]]]; [left; exact H|right; split; [left; reflexivity|auto]].
        -- right. assert (x <> c) by (intro; subst; contradiction).
           split; [right; exact HxL|]. rewrite <- (Q1 x H), <- Z1. auto.
    + split; [exact Z1|]. split; [exact R1|]. split.
      * intros x Hx. destruct (D1 x Hx) as [H|[-> H]]; [left; exact H|right; exact H].
      * discriminate.
Qed.

Lemma generate_all_size (cfg : Cfg) (u : Z) (l : list Z) (s : St) :
  size (outcome (generate_all cfg u l s)) = size s.
Proof.
  unfold generate_all. destruct l as [|c l']; [reflexivity|].
  destruct (batchLoad cfg); [reflexivity|].
  apply (mfor_preserve (fun s' => size s' = size s)); [|reflexivity].
  intros x s0 H. exact H.
Qed.

Lemma invalidate_frame (cfg : Cfg) (force : bool) (env : Env) (s : St) :
  let s' := outcome (invalidate cfg force env s) in
  size s' = size s /\
  (forall x, has x (domElements s') = true ->
     has x (domElements s) = true \/ below_size x (size s) = true) /\
  (exists rs, requests s' = requests s ++ rs /\
     forall rq x, In rq rs -> covers x rq = true ->
       below_size x (size s) = true /\ has x (domElements s) = false /\ has x (queries s) = false).
Proof.
  intros s'. assert (Hs : s' = outcome (invalidate cfg force env s)) by reflexivity. clearbody s'.
  unfold invalidate, bind, get, modify, throw, ret in Hs.
  destruct (negb (guard cfg force env)).
  { subst s'. cbn [outcome]. split; [reflexivity|]. split; [auto|].
    exists []. rewrite app_nil_r. split; [reflexivity|intros _ _ []]. }
  destruct (getChildrenInView _ _ _ _) as [l|] eqn:Eg.
  2:{ subst s'. cbn [outcome]. unfold set_lastScrollTop. cbn [size domElements requests].
      split; [reflexivity|]. split; [auto|].
      exists []. rewrite app_nil_r. split; [reflexivity|intros _ _ []]. }
  match type of Hs with context [evictOverflow cfg ?x] =>
    destruct (evictOverflow_frame cfg x) as (s3 & E3 & D3 & C3 & Q3 & U3 & Z3 & R3 & T3);
    rewrite E3 in Hs
  end.
  unfold set_inView, set_lastScrollTop in D3, Q3, Z3, R3; cbn [domElements queries size requests] in D3, Q3, Z3, R3.
  match type of Hs with context [mfold (load_child cfg ?u) ?L [] s3] =>
    assert (HN : NoDup L) by (apply NoDup_filter, NoDup_filter; exact (getChildrenInView_NoDup _ _ _ _ _ Eg));
    destruct (load_loop_gen cfg u L HN [] s3) as (Z4 & R4 & D4 & A4);
    destruct (mfold (load_child cfg u) L [] s3) as [toLoad s4|s4] eqn:E4
  end; cbn [outcome] in Z4, R4, D4.
  - match type of Hs with context [generate_all cfg ?u toLoad s4] =>
      destruct (generate_all_spec cfg u toLoad s4) as (s5 & E5 & D5 & _ & _ & [rs [R5 Rs]] & _);
      pose proof (generate_all_size cfg u toLoad s4) as Z5; rewrite E5 in Hs, Z5
    end.
    subst s'. cbn [outcome] in *.
    split; [congruence|]. split.
    + intros x Hx. rewrite D5 in Hx. destruct (D4 x Hx) as [H|H]; [left; congruence|right; congruence].
    + exists rs. split; [congruence|].
      intros rq x Hrq Hx. specialize (Rs rq x Hrq Hx).
      destruct (A4 toLoad s4 eq_refl x Rs) as [[]|(HL & Hq & Hb)].
      rewrite Q3 in Hq. rewrite Z3 in Hb. split; [exact Hb|]. split; [|exact Hq].
      apply filter_In in HL as [HL _]. apply filter_In in HL as [_ HL].
      apply negb_true_iff in HL. exact HL.
  - subst s'. cbn [outcome]. split; [congruence|]. split.
    + intros x Hx. destruct (D4 x Hx) as [H|H]; [left; congruence|right; congruence].
    + exists []. rewrite app_nil_r. split; [congruence|intros _ _ []].
Qed.

(** An invalidation pass keeps the outstanding generator calls and only adds calls for indices that were below the list size, not mounted and not pending when the pass started. *)
Theorem invalidate_requests_only_needed (cfg : Cfg) (force : bool) (env : Env) (s : St) :
  exists rs, requests (outcome (invalidate cfg force env s)) = requests s ++ rs /\
    forall rq x, In rq rs -> covers x rq = true ->
      below_size x (size s) = true /\ has x (domElements s) = false /\ has x (queries s) = false.
Proof. apply (invalidate_frame cfg force env s). Qed.

(** ** updateSize *)

Lemma shrink_loop (f : Z -> M unit) :
  (forall r s, f r s = Ok tt
     (set_cacheQueue (remove_first r (cacheQueue s))
       (set_queue (remove_first r (queue s))
         (set_cache (map_delete r (cache s))
           (set_domElements (set_delete r (domElements s)) s))))) ->
  forall l s, exists s', mfor l f s = Ok tt s' /\
    size s' = size s /\ requests s' = requests s /\ queries s' = queries s /\
    uniqueIdentifier s' = uniqueIdentifier s /\
    (forall x, has x (domElements s') = has x (domElements s) && negb (has x l)) /\
    (forall x, map_get x (cache s') = if has x l then None else map_get x (cache s)).
Proof.
  intros HF. induction l as [|r l IH]; intros s.
  - exists s. split; [reflexivity|]. split; [reflexivity|]. split; [reflexivity|].
    split; [reflexivity|]. split; [reflexivity|]. split; intros x; simpl; [rewrite andb_true_r|]; reflexivity.
  - cbn [mfor]. unfold bind at 1. rewrite HF. cbv beta iota.
    match goal with |- context [mfor l f ?x] =>
      destruct (IH x) as (s' & E & Z' & R & Q' & U & D & C) end.
    exists s'. rewrite E. split; [reflexivity|].
    unfold set_cacheQueue, set_queue, set_cache, set_domElements in Z', R, Q', U, D, C.
    cbn [size requests queries uniqueIdentifier domElements cache] in Z', R, Q', U, D, C.
    split; [exact Z'|]. split; [exact R|]. split; [exact Q'|]. split; [exact U|]. split.
    + intros x. rewrite D, has_set_delete. change (has x (r :: l)) with ((x =? r) || has x l).
      destruct (x =? r), (has x (domElements s)), (has x l); reflexivity.
    + intros x. rewrite C, map_get_delete. change (has x (r :: l)) with ((x =? r) || has x l).
      destruct (x =? r), (has x l); reflexivity.
Qed.

Lemma has_filter (f : Z -> bool) (x : Z) (l : list Z) :
  has x (filter f l) = has x l && f x.
Proof.
  induction l as [|y l IH]; [reflexivity|]. simpl.
  destruct (f y) eqn:Ey; simpl; rewrite IH; destruct (Z.eqb_spec x y); subst;
    [rewrite Ey| |rewrite Ey|]; cbn [orb andb]; try reflexivity.
  destruct (has y l); reflexivity.
Qed.

Lemma updateSize_body_frame (cfg : Cfg) (n : num) (env : Env) (s : St) :
  num_same (size s) n = false ->
  let s' := outcome (updateSize_body cfg n env s) in
  size s' = Some n /\
  (forall x, has x (domElements s') = true ->
     (has x (domElements s) = true /\ num_le_Z n x = false) \/
     (is_zero (size s) = true /\ below_size x (Some n) = true)) /\
  (is_zero (size s) = false -> forall x, has x (domElements s) = false ->
     map_get x (cache s') = map_get x (cache s)).
Proof.
  intros Hn s'. assert (Hs : s' = outcome (updateSize_body cfg n env s)) by reflexivity. clearbody s'.
  unfold updateSize_body, bind, get, modify, ret in Hs. rewrite Hn in Hs.
  cbv beta iota in Hs.
  assert (Tail : forall s2, size s2 = Some n ->
    (forall x, has x (domElements s2) = true -> has x (domElements s) = true /\ num_le_Z n x = false) ->
    (forall x, has x (domElements s) = false -> map_get x (cache s2) = map_get x (cache s)) ->
    forall s', s' = outcome
      match (if is_zero (Some n) then fun s : St => Ok tt (set_children [] s) else fun s : St => Ok tt s) s2
      with
      | Ok _ s' => (if is_zero (size s) then invalidate cfg false env else fun s : St => Ok tt s) s'
      | Throw s' => Throw s'
      end ->
    size s' = Some n /\
    (forall x, has x (domElements s') = true ->
       (has x (domElements s) = true /\ num_le_Z n x = false) \/
       (is_zero (size s) = true /\ below_size x (Some n) = true)) /\
    (is_zero (size s) = false -> forall x, has x (domElements s) = false ->
       map_get x (cache s') = map_get x (cache s))).
  { intros s2 Z2 D2 C2 s0 H0.
    assert (H3 : exists s3, (if is_zero (Some n) then fun s : St => Ok tt (set_children [] s) else fun s : St => Ok tt s) s2 = Ok tt s3 /\
                 size s3 = Some n /\ domElements s3 = domElements s2 /\ cache s3 = cache s2)
      by (destruct (is_zero (Some n)); eexists; (split; [reflexivity|]); auto).
    destruct H3 as (s3 & E3 & Z3 & D3 & C3). rewrite E3 in H0.
    destruct (is_zero (size s)) eqn:Ez.
    - destruct (invalidate_frame cfg false env s3) as (Z4 & D4 & _). rewrite <- H0 in Z4, D4.
      split; [congruence|]. split; [|discriminate].
      intros x Hx. destruct (D4 x Hx) as [H|H].
      + left. apply D2. rewrite <- D3. exact H.
      + right. rewrite Z3 in H. auto.
    - cbv beta in H0. cbn [outcome] in H0. subst s0. split; [exact Z3|]. split.
      + intros x Hx. left. apply D2. rewrite <- D3. exact Hx.
      + intros _ x Hx. rewrite C3. apply C2, Hx. }
  destruct (filter (num_le_Z n) (domElements s)) as [|r rs] eqn:Ef; cbv beta iota in Hs.
  - apply (Tail (set_size (Some n) s) eq_refl); [|intros; reflexivity|exact Hs].
    intros x Hx. change (has x (domElements s) = true) in Hx. split; [exact Hx|].
    pose proof (has_filter (num_le_Z n) x (domElements s)) as Hf. rewrite Ef, Hx in Hf.
    symmetry. exact Hf.
  - match type of Hs with context [mfor (r :: rs) ?f ?x] =>
      destruct (shrink_loop f (fun _ _ => eq_refl) (r :: rs) x) as (s2 & E2 & Z2 & _ & _ & _ & D2 & C2);
      rewrite E2 in Hs
    end.
    cbv beta iota in Hs. unfold set_children, set_size in Z2, D2, C2.
    cbn [size domElements cache] in Z2, D2, C2.
    apply (Tail s2 Z2); [| |exact Hs].
    + intros x Hx. rewrite D2, <- Ef, has_filter in Hx.
      destruct (has x (domElements s)), (num_le_Z n x); try discriminate. auto.
    + intros x Hx. rewrite C2, <- Ef, has_filter, Hx. reflexivity.
Qed.

Lemma updateSize_nonneg (cfg : Cfg) (q : Q) (env : Env) (s : St) :
  (0 <= q)%Q -> updateSize cfg (JNum q) env s = updateSize_body cfg (NNum q) env s.
Proof.
  intros Hq. unfold updateSize, Qlt_bool. apply Qle_bool_iff in Hq. rewrite Hq. reflexivity.
Qed.

Lemma updateSize_body_same (cfg : Cfg) (n : num) (env : Env) (s : St) :
  num_same (size s) n = true -> updateSize_body cfg n env s = Ok tt s.
Proof. intros H. unfold updateSize_body, bind, get. rewrite H. reflexivity. Qed.

(** After [updateSize(q)] with [q >= 0] and a different size, the size is [q] and every mounted index is below [q], also when the pass it triggers mounts indices. *)
Theorem updateSize_unmounts_beyond (cfg : Cfg) (q : Q) (env : Env) (s : St) :
  (0 <= q)%Q -> num_same (size s) (NNum q) = false ->
  let s' := outcome (updateSize cfg (JNum q) env s) in
  size s' = Some (NNum q) /\ forall x, has x (domElements s') = true -> (inject_Z x < q)%Q.
Proof.
  intros Hq Hn. rewrite updateSize_nonneg by exact Hq.
  destruct (updateSize_body_frame cfg (NNum q) env s Hn) as (Z' & D & _).
  split; [exact Z'|]. intros x Hx. destruct (D x Hx) as [[_ H]|[_ H]].
  - unfold num_le_Z in H. apply Qnot_le_lt. intros H'. apply Qle_bool_iff in H'. congruence.
  - unfold below_size, Qlt_bool in H. apply negb_true_iff in H.
    apply Qnot_le_lt. intros H'. apply Qle_bool_iff in H'. congruence.
Qed.

Lemma updateSize_unmounts_beyond_witness :
  let s' := outcome (updateSize cfg_limit3 (JNum 2) env_2_3 st_mounted4) in
  size s' = Some (NNum 2) /\ forall x, has x (domElements s') = true -> (inject_Z x < 2)%Q.
Proof.
  apply updateSize_unmounts_beyond; [discriminate | reflexivity].
Defined.

(** When the list size was not 0, [updateSize] keeps the cache entry of every index that is not mounted, also of an index at or beyond the new size. *)
Theorem updateSize_keeps_unmounted_cache (cfg : Cfg) (arg : jsval) (env : Env) (s : St) (x : Z) (d : elem) :
  is_zero (size s) = false -> has x (domElements s) = false -> map_get x (cache s) = Some d ->
  map_get x (cache (outcome (updateSize cfg arg env s))) = Some d.
Proof.
  intros Hz Hx Hc.
  assert (B : forall n, map_get x (cache (outcome (updateSize_body cfg n env s))) = Some d).
  { intros n. destruct (num_same (size s) n) eqn:Hn.
    - rewrite updateSize_body_same by exact Hn. exact Hc.
    - destruct (updateSize_body_frame cfg n env s Hn) as (_ & _ & C).
      rewrite (C Hz x Hx). exact Hc. }
  destruct arg as [q| | | |]; [unfold updateSize; destruct (Qlt_bool q 0)| | | |]; cbn [outcome];
    first [exact Hc | apply B].
Qed.

Lemma updateSize_keeps_unmounted_cache_witness :
  map_get 0 (cache (outcome (updateSize cfg_limit3 (JNum 0) env_2_3 c7_s2))) = Some (mkElem 0 50).
Proof.
  apply updateSize_keeps_unmounted_cache; vm_compute; reflexivity.
Defined.

Lemma invalidate_NaN_size (cfg : Cfg) (force : bool) (env : Env) (s : St) :
  size s = Some NNaN ->
  let s' := outcome (invalidate cfg force env s) in
  size s' = size s /\ requests s' = requests s /\ domElements s' = domElements s.
Proof.
  intros Hz s'. assert (Hs : s' = outcome (invalidate cfg force env s)) by reflexivity. clearbody s'.
  unfold invalidate, bind, get, modify, throw, ret in Hs.
  destruct (negb (guard cfg force env)); [subst s'; auto|].
  destruct (getChildrenInView _ _ _ _) as [l|]; [|subst s'; auto].
  match type of Hs with context [evictOverflow cfg ?x] =>
    destruct (evictOverflow_frame cfg x) as (s3 & E3 & D3 & _ & _ & _ & Z3 & R3 & _);
    rewrite E3 in Hs
  end.
  assert (F : forall l, filter (fun e => below_size e (size s)) l = []).
  { rewrite Hz. induction l0 as [|y l0 IH]; [reflexivity|exact IH]. }
  rewrite F in Hs. cbn [mfold] in Hs. unfold generate_all in Hs. subst s'. cbn [outcome].
  exact (conj Z3 (conj R3 D3)).
Qed.

(** After [updateSize(NaN)] the size is NaN, and an invalidation pass run on the resulting state neither calls the generator nor changes the mounted indices. *)
Theorem updateSize_NaN_stops_loading (cfg : Cfg) (env : Env) (s : St) :
  let s1 := outcome (updateSize cfg JNaN env s) in
  size s1 = Some NNaN /\
  forall force env', let s2 := outcome (invalidate cfg force env' s1) in
    requests s2 = requests s1 /\ domElements s2 = domElements s1.
Proof.
  intros s1. assert (Z1 : size s1 = Some NNaN).
  { assert (Hn : num_same (size s) NNaN = false) by (destruct (size s) as [[]|]; reflexivity).
    exact (proj1 (updateSize_body_frame cfg NNaN env s Hn)). }
  split; [exact Z1|]. intros force env'.
  destruct (invalidate_NaN_size cfg force env' s1 Z1) as (_ & R & D). auto.
Qed.

(** Calling [updateSize(q)] a second time with the same [q >= 0] changes nothing. *)
Theorem updateSize_repeat_noop (cfg : Cfg) (q : Q) (env env' : Env) (s : St) :
  (0 <= q)%Q ->
  let s1 := outcome (updateSize cfg (JNum q) env s) in
  updateSize cfg (JNum q) env' s1 = Ok tt s1.
Proof.
  intros Hq s1. rewrite updateSize_nonneg by exact Hq. apply updateSize_body_same.
  unfold s1. rewrite updateSize_nonneg by exact Hq.
  destruct (num_same (size s) (NNum q)) eqn:Hn.
  - rewrite updateSize_body_same by exact Hn. exact Hn.
  - rewrite (proj1 (updateSize_body_frame cfg (NNum q) env s Hn)). apply Qeq_bool_refl.
Qed.

Lemma updateSize_repeat_noop_witness :
  let s1 := outcome (updateSize cfg_limit3 (JNum 2) env_2_3 st_mounted4) in
  updateSize cfg_limit3 (JNum 2) env_2_3 s1 = Ok tt s1.
Proof. apply updateSize_repeat_noop. discriminate. Defined.

Lemma truncate_loop_diverges_negative_witness :
  truncate_guard (-1) (fst (Nat.iter 3 truncate_body ([5; 6], [(5, el 5); (6, el 6)]))) = true /\
  ((length [5; 6] <= 3)%nat -> fst (Nat.iter 3 truncate_body ([5; 6], [(5, el 5); (6, el 6)])) = []).
Proof. apply truncate_loop_diverges_negative. lia. Defined.

Lemma truncate_loop_follows_guard_witness :
  truncate_loop 1 [5; 6; 7] [(5, el 5); (6, el 6); (7, el 7)] =
    Nat.iter (length [5; 6; 7] - N.to_nat 1) truncate_body ([5; 6; 7], [(5, el 5); (6, el 6); (7, el 7)]) /\
  (forall k, (k < length [5; 6; 7] - N.to_nat 1)%nat -> truncate_guard (Z.of_N 1) (skipn k [5; 6; 7]) = true) /\
  truncate_guard (Z.of_N 1) (fst (truncate_loop 1 [5; 6; 7] [(5, el 5); (6, el 6); (7, el 7)])) = false.
Proof. apply truncate_loop_follows_guard. reflexivity. Defined.
